(** * Product catalog demo: form validation, viewer list and CRUD router

    A shallow embedding of

    - [src/AddProductForm.tsx]   (the product submission form),
    - [src/unnamed/part_000]     (the catalog viewer, [ProductsPage]),
    - [backend/src/routes/products.ts] (the Express router over MySQL),

    together with the properties the specification states about them. *)

From stdpp Require Import gmap strings list pretty.
From Stdlib Require Import ZArith Sorted Permutation.
From Stdlib Require Ascii String.

Set Warnings "-register-all".
Local Open Scope Z_scope.

(** ** JavaScript values

    Strings are sequences of UTF-16 code units, numbers are kept as the
    numeral they were read from, objects are finite maps from property
    names to values. *)

Module Js.

Abbreviation codeunit := N (only parsing).
Abbreviation jsstring := (list N) (only parsing).

(** A Rocq string literal read as a JavaScript string (one code unit per
    character; enough for the ASCII literals of the sources). *)
Definition str (s : string) : jsstring :=
  Ascii.N_of_ascii <$> String.list_ascii_of_string s.

(** *** White space and [String.prototype.trim]

    [WhiteSpace] and [LineTerminator] of ECMAScript: TAB, LF, VT, FF, CR,
    SP, NBSP, the Unicode space separators, LS, PS and the BOM. *)
Definition is_ws (c : codeunit) : bool :=
  ((9 <=? c) && (c <=? 13) || (c =? 32) || (c =? 160) || (c =? 5760)
   || (8192 <=? c) && (c <=? 8202) || (c =? 8232) || (c =? 8233)
   || (c =? 8239) || (c =? 8287) || (c =? 12288) || (c =? 65279))%N.

Fixpoint trimStart (s : jsstring) : jsstring :=
  match s with
  | c :: r => if is_ws c then trimStart r else s
  | [] => []
  end.

Definition trimEnd (s : jsstring) : jsstring := reverse (trimStart (reverse s)).

Definition trim (s : jsstring) : jsstring := trimEnd (trimStart s).

(** *** Numbers

    A number is NaN, an infinity, or a finite numeral [(-1)^neg * m * 10^e]
    still to be rounded to binary64.  The program observes numbers only
    through [ToBoolean] and [> 0]; both depend on whether the numeral
    rounds to zero, which round-to-nearest-even decides by comparing its
    magnitude with half the least subnormal, [2^-1075]. *)
Inductive jsnum :=
| NaN
| Infinity (neg : bool)
| Lit (neg : bool) (m : N) (e : Z).

#[global] Instance jsnum_eq_dec : EqDecision jsnum.
Proof. solve_decision. Defined.

(** [m * 10^e > 2^-1075]: the binary64 nearest to the numeral is not zero. *)
Definition rounds_nonzero (m : N) (e : Z) : bool :=
  if 0 <=? e then 0 <? Z.of_N m
  else 10 ^ (- e) <? Z.of_N m * 2 ^ 1075.

(** [n > 0] on numbers. *)
Definition num_gt0 (n : jsnum) : bool :=
  match n with
  | NaN => false
  | Infinity neg => negb neg
  | Lit neg m e => negb neg && rounds_nonzero m e
  end.

(** [ToBoolean] on numbers: false for [+0], [-0] and NaN. *)
Definition num_truthy (n : jsnum) : bool :=
  match n with
  | NaN => false
  | Infinity _ => true
  | Lit _ m e => rounds_nonzero m e
  end.

(** *** [Number(string)]: the StringNumericLiteral grammar *)

Definition digit_val (base : N) (c : codeunit) : option N :=
  let v := (if (48 <=? c) && (c <=? 57) then Some (c - 48)
            else if (97 <=? c) && (c <=? 102) then Some (c - 87)
            else if (65 <=? c) && (c <=? 70) then Some (c - 55)
            else None)%N in
  match v with
  | Some d => if (d <? base)%N then Some d else None
  | None => None
  end.

(** The longest prefix of digits in [base], and what follows it. *)
Fixpoint take_digits (base : N) (s : jsstring) : list N * jsstring :=
  match s with
  | c :: r =>
      match digit_val base c with
      | Some d => let '(ds, rest) := take_digits base r in (d :: ds, rest)
      | None => ([], s)
      end
  | [] => ([], [])
  end.

Definition digits_value (base : N) (ds : list N) : N :=
  fold_left (λ acc d, acc * base + d)%N ds 0%N.

(** [+] is 43, [-] is 45, [.] is 46, [e] is 101, [E] is 69. *)
Definition take_sign (s : jsstring) : bool * jsstring :=
  match s with
  | 43%N :: r => (false, r)
  | 45%N :: r => (true, r)
  | _ => (false, s)
  end.

(** ExponentPart, optional, up to the end of the string. *)
Definition parse_exponent (s : jsstring) : option Z :=
  match s with
  | [] => Some 0
  | c :: r =>
      if ((c =? 101) || (c =? 69))%N then
        let '(neg, r') := take_sign r in
        match take_digits 10 r' with
        | ((_ :: _) as ds, []) =>
            let v := Z.of_N (digits_value 10 ds) in
            Some (if neg then - v else v)
        | _ => None
        end
      else None
  end.

(** StrUnsignedDecimalLiteral without [Infinity]: digits, an optional
    fraction and an optional exponent, with a digit on at least one side
    of the point. *)
Definition parse_decimal (s : jsstring) : option (N * Z) :=
  let '(ip, r1) := take_digits 10 s in
  let '(fp, r2) := match r1 with
                   | 46%N :: r => take_digits 10 r
                   | _ => ([], r1)
                   end in
  match ip ++ fp with
  | [] => None
  | ds =>
      match parse_exponent r2 with
      | Some ex => Some (digits_value 10 ds, ex - Z.of_nat (length fp))
      | None => None
      end
  end.

(** NonDecimalIntegerLiteral: [0x], [0o], [0b] (either case) and digits. *)
Definition parse_radix (s : jsstring) : option N :=
  match s with
  | 48%N :: p :: r =>
      let base := (if (p =? 120) || (p =? 88) then Some 16
                   else if (p =? 111) || (p =? 79) then Some 8
                   else if (p =? 98) || (p =? 66) then Some 2
                   else None)%N in
      match base with
      | Some b =>
          match take_digits b r with
          | ((_ :: _) as ds, []) => Some (digits_value b ds)
          | _ => None
          end
      | None => None
      end
  | _ => None
  end.

Definition Number (s : jsstring) : jsnum :=
  match trim s with
  | [] => Lit false 0 0
  | t =>
      match parse_radix t with
      | Some v => Lit false v 0
      | None =>
          let '(neg, u) := take_sign t in
          if decide (u = str "Infinity") then Infinity neg
          else match parse_decimal u with
               | Some (m, e) => Lit neg m e
               | None => NaN
               end
      end
  end.

(** *** JSON values and objects *)

Inductive jsval :=
| VNull
| VBool (b : bool)
| VNum (n : jsnum)
| VStr (s : jsstring)
| VArr (l : list jsval)
| VObj (o : gmap string jsval).

(** A property read [o.k]: [None] stands for [undefined]. *)
Abbreviation obj := (gmap string jsval) (only parsing).

(** [ToBoolean]. *)
Definition truthy (v : jsval) : bool :=
  match v with
  | VNull => false
  | VBool b => b
  | VNum n => num_truthy n
  | VStr s => negb (bool_decide (s = []))
  | VArr _ | VObj _ => true
  end.

(** [!x] for a possibly undefined [x]. *)
Definition lnot (x : option jsval) : bool :=
  match x with
  | Some v => negb (truthy v)
  | None => true
  end.

(** [x ?? d]. *)
Definition nullish (x : option jsval) (d : jsval) : jsval :=
  match x with
  | None | Some VNull => d
  | Some v => v
  end.

Definition num_of_Z (z : Z) : jsnum := Lit (z <? 0) (Z.abs_N z) 0.

(** [s.startsWith(p)]. *)
Fixpoint startsWith (s p : jsstring) : bool :=
  match p, s with
  | [], _ => true
  | a :: p', b :: s' => (a =? b)%N && startsWith s' p'
  | _ :: _, [] => false
  end.

(** Empty or made of white space only. *)
Definition blank (s : jsstring) : bool := forallb is_ws s.

End Js.

Import Js.


(** ** The product submission form ([src/AddProductForm.tsx]) *)

Module ProductPayload.
Record t := mk
  { title : jsstring;
    price : jsnum;
    description : jsstring;
    image : jsstring;
    category : jsstring }.
End ProductPayload.

Module Form.

(** The component's [useState] cells. *)
Record state := mkState
  { title : jsstring;
    price : jsstring;
    description : jsstring;
    category : jsstring;
    imageB64 : jsstring;
    previewSrc : jsstring;
    submitting : bool;
    error : option jsstring;
    success : option jsstring }.

Definition initial : state :=
  mkState [] [] [] [] [] [] false None None.

Definition setTitle (v : jsstring) (s : state) : state :=
  mkState v (price s) (description s) (category s) (imageB64 s)
          (previewSrc s) (submitting s) (error s) (success s).
Definition setPrice (v : jsstring) (s : state) : state :=
  mkState (title s) v (description s) (category s) (imageB64 s)
          (previewSrc s) (submitting s) (error s) (success s).
Definition setDescription (v : jsstring) (s : state) : state :=
  mkState (title s) (price s) v (category s) (imageB64 s)
          (previewSrc s) (submitting s) (error s) (success s).
Definition setCategory (v : jsstring) (s : state) : state :=
  mkState (title s) (price s) (description s) v (imageB64 s)
          (previewSrc s) (submitting s) (error s) (success s).
Definition setImageB64 (v : jsstring) (s : state) : state :=
  mkState (title s) (price s) (description s) (category s) v
          (previewSrc s) (submitting s) (error s) (success s).
Definition setPreviewSrc (v : jsstring) (s : state) : state :=
  mkState (title s) (price s) (description s) (category s) (imageB64 s)
          v (submitting s) (error s) (success s).
Definition setSubmitting (v : bool) (s : state) : state :=
  mkState (title s) (price s) (description s) (category s) (imageB64 s)
          (previewSrc s) v (error s) (success s).
Definition setError (v : option jsstring) (s : state) : state :=
  mkState (title s) (price s) (description s) (category s) (imageB64 s)
          (previewSrc s) (submitting s) v (success s).
Definition setSuccess (v : option jsstring) (s : state) : state :=
  mkState (title s) (price s) (description s) (category s) (imageB64 s)
          (previewSrc s) (submitting s) (error s) v.

(** [const allValid = title.trim().length > 0 && Number(price) > 0 && ...] *)
Definition allValid (s : state) : bool :=
  (0 <? length (trim (title s)))%nat
  && num_gt0 (Number (price s))
  && (0 <? length (trim (description s)))%nat
  && (0 <? length (trim (category s)))%nat
  && (0 <? length (trim (imageB64 s)))%nat
  && negb (submitting s).

(** The submit button's [disabled={!allValid}]. *)
Definition submit_disabled (s : state) : bool := negb (allValid s).

Definition resetForm (s : state) : state :=
  setPreviewSrc [] (setImageB64 [] (setCategory [] (setDescription []
    (setPrice [] (setTitle [] s))))).

(** The six input cells, as opposed to the feedback cells. *)
Definition fields (s : state) :=
  (title s, price s, description s, category s, imageB64 s, previewSrc s).

(** *** [handleImageChange] *)

Record file := { type : jsstring }.

(** Up to the [await]: [true] when a read of the file has been started. *)
Definition handleImageChange_begin (f : option file) (s : state) : state * bool :=
  match f with
  | None => (s, false)
  | Some f =>
      if negb (startsWith (type f) (str "image/")) then
        (setError (Some (str "Please choose a valid image file.")) s, false)
      else (setError None s, true)
  end.

(** After the [await]: [fileToBase64] resolved with a data URI or rejected. *)
Definition handleImageChange_settle (r : option jsstring) (s : state) : state :=
  match r with
  | Some base64 => setPreviewSrc base64 (setImageB64 base64 s)
  | None => setError (Some (str "Failed to read image file.")) s
  end.

(** *** [handleSubmit] *)

(** How the awaited [fetch] (and the reads of its body) can end. *)
Inductive outcome :=
| Rejected (message : option jsstring)
| NotOk (status : N) (text : jsstring)
| Ok (data : obj).

Definition failed (o : outcome) : bool :=
  match o with Ok _ => false | _ => true end.

(** Up to the [await]: the state updates and the request body. *)
Definition handleSubmit_begin (s : state) : state * ProductPayload.t :=
  let payload :=
    ProductPayload.mk (trim (title s)) (Number (price s))
                      (trim (description s)) (imageB64 s) (trim (category s)) in
  (setSuccess None (setError None (setSubmitting true s)), payload).

(** [`HTTP ${res.status} — ${text}`] *)
Definition http_error (status : N) (text : jsstring) : jsstring :=
  str "HTTP " ++ str (pretty status) ++ [32; 8212; 32]%N ++ text.

(** After the [await]: the new state and the argument [onSuccess] is
    called with, if it is called. *)
Definition handleSubmit_settle (o : outcome) (s : state) : state * option obj :=
  match o with
  | Ok data =>
      (setSubmitting false
         (resetForm (setSuccess (Some (str "Product created successfully!")) s)),
       Some data)
  | NotOk status text =>
      (setSubmitting false (setError (Some (http_error status text)) s), None)
  | Rejected message =>
      (setSubmitting false
         (setError (Some (default (str "Failed to submit product.") message)) s),
       None)
  end.

(** A submission with nothing happening between its two halves. *)
Definition attempt (o : outcome) (s : state) : state :=
  (handleSubmit_settle o (handleSubmit_begin s).1).1.

(** *** The form as a transition system

    [pending] counts the requests in flight and [reading] the file reads
    in flight; neither is a cell of the component. *)

Record page := mkPage { form : state; pending : nat; reading : nat }.

Inductive event :=
| ChangeTitle (v : jsstring)
| ChangePrice (v : jsstring)
| ChangeDescription (v : jsstring)
| ChangeCategory (v : jsstring)
| ChooseFile (f : option file)
| FileRead (r : option jsstring)
| ClickReset
| Submit
| Settle (o : outcome).

(** The browser submits the form only through an enabled submit button;
    [readAsDataURL] resolves with a [data:] URI. *)
Definition step (e : event) (p : page) : option page :=
  let s := form p in
  match e with
  | ChangeTitle v => Some (mkPage (setTitle v s) (pending p) (reading p))
  | ChangePrice v => Some (mkPage (setPrice v s) (pending p) (reading p))
  | ChangeDescription v => Some (mkPage (setDescription v s) (pending p) (reading p))
  | ChangeCategory v => Some (mkPage (setCategory v s) (pending p) (reading p))
  | ChooseFile f =>
      let '(s', started) := handleImageChange_begin f s in
      Some (mkPage s' (pending p) (if started then S (reading p) else reading p))
  | FileRead r =>
      match reading p with
      | O => None
      | S n =>
          if match r with Some b => startsWith b (str "data:") | None => true end
          then Some (mkPage (handleImageChange_settle r s) (pending p) n)
          else None
      end
  | ClickReset => Some (mkPage (resetForm s) (pending p) (reading p))
  | Submit =>
      if submit_disabled s then None
      else Some (mkPage (handleSubmit_begin s).1 (S (pending p)) (reading p))
  | Settle o =>
      match pending p with
      | O => None
      | S n => Some (mkPage (handleSubmit_settle o s).1 n (reading p))
      end
  end.

Fixpoint run (es : list event) (p : page) : option page :=
  match es with
  | [] => Some p
  | e :: es' =>
      match step e p with
      | Some p' => run es' p'
      | None => None
      end
  end.

Definition reachable (p : page) : Prop :=
  ∃ es, run es (mkPage initial 0 0) = Some p.

(** What every reachable page satisfies: the requests in flight are one
    when the flag is set and none otherwise, and the image cell is empty
    or holds a data URI. *)
Definition page_inv (p : page) : Prop :=
  pending p = (if submitting (form p) then 1 else 0)%nat
  ∧ (imageB64 (form p) = [] ∨ startsWith (imageB64 (form p)) (str "data:") = true).

(** The preview block of the rendered form: [{previewSrc && (...)}]. *)
Definition preview_shown (s : state) : bool :=
  negb (bool_decide (previewSrc s = [])).

(** *** The specification's reading of validity

    A form may not be submitted when one of the three texts is empty or
    white space only, the price is not a number above zero, there is no
    image payload, or a submission is in flight.  [no_image] says what
    counts as having no payload. *)
Definition spec_invalid (no_image : jsstring → Prop) (s : state) : Prop :=
  blank (title s) = true ∨ blank (description s) = true
  ∨ blank (category s) = true
  ∨ num_gt0 (Number (price s)) = false
  ∨ no_image (imageB64 s)
  ∨ submitting s = true.

(** The reading under which a failed submission touches nothing but the error
    message and the submitting flag. *)
Definition only_error_and_flag_differ (s s' : state) : Prop :=
  fields s' = fields s ∧ success s' = success s.

End Form.

(** ** The catalog viewer ([ProductsPage], src/unnamed/part_000) *)

Module Viewer.

Record state := mkState
  { products : list obj;
    loading : bool;
    error : option jsstring }.

Definition initial : state := mkState [] true None.

Definition setProducts (f : list obj → list obj) (s : state) : state :=
  mkState (f (products s)) (loading s) (error s).
Definition setError (v : option jsstring) (s : state) : state :=
  mkState (products s) (loading s) v.

(** How the collection fetch of the mount effect can end. *)
Inductive outcome :=
| Rejected (message : option jsstring)
| NotOk (status : N)
| Ok (data : list obj).


(** [{ rate: 0, count: 0 }] *)
Definition zero_rating : jsval :=
  VObj (<["rate" := VNum (Lit false 0 0)]>
         (<["count" := VNum (Lit false 0 0)]> ∅)).

(** The callback handed to the form:
    [setProducts((prev) => [{ ...created, rating: { rate: 0, count: 0 } }, ...prev])] *)
Definition onSuccess (created : obj) (s : state) : state :=
  setProducts (λ prev, <["rating" := zero_rating]> created :: prev) s.



(** [v?.k], for a property name that only objects can carry. *)
Definition opt_member (v : option jsval) (k : string) : option jsval :=
  match v with
  | Some (VObj o) => o !! k
  | _ => None
  end.

(** The stock cell of a row and of a card: [p.rating?.count ?? "-"]. *)
Definition stock_cell (p : obj) : jsval :=
  nullish (opt_member (p !! "rating") "count") (VStr (str "-")).

(** What the specification asks of the record put at the head:
    the created record's own rating when it has one, the zero rating
    otherwise. *)
Definition rating_kept_or_zero (created stored : obj) : Prop :=
  stored !! "rating" = Some (default zero_rating (created !! "rating")).

End Viewer.

(** ** The products router ([backend/src/routes/products.ts]) *)

Module Backend.

(** A row of the [products] table, with the columns the statements name. *)
Record row := mkRow
  { id : Z;
    name : jsval;
    price : jsval;
    description : jsval;
    category : jsval;
    image : jsval }.

(** A value bound to [id = ?]: the route parameter (text) or an
    [insertId] (a number). *)
Inductive param :=
| Text (s : jsstring)
| Num (n : Z).

(** The five statements the router sends, with their bound values
    ([None] is an [undefined] array element). *)
Inductive statement :=
| SelectAll
| SelectById (p : param)
| Insert (name price description category image : option jsval)
| Update (name price description category image : option jsval) (p : param)
| Delete (p : param).

Inductive result :=
| RowData (rows : list row)
| Header (insertId : Z) (affectedRows : nat).

Definition rows_of (r : result) : list row :=
  match r with RowData rows => rows | Header _ _ => [] end.
Definition insertId (r : result) : Z :=
  match r with Header i _ => i | RowData _ => 0 end.
Definition affectedRows (r : result) : nat :=
  match r with Header _ n => n | RowData _ => O end.

(** [ORDER BY id DESC], by insertion. *)
Fixpoint insert_desc (r : row) (l : list row) : list row :=
  match l with
  | [] => [r]
  | x :: l' => if id x <=? id r then r :: l else x :: insert_desc r l'
  end.

Fixpoint order_by_id_desc (l : list row) : list row :=
  match l with
  | [] => []
  | r :: l' => insert_desc r (order_by_id_desc l')
  end.

Record world := mkWorld
  { table : list row;
    next_id : Z;
    oracle : list bool;
    trace : list (statement * bool) }.

(** Identifiers in descending order. *)
Definition id_desc (a b : row) : Prop := id b ≤ id a.

(** Every identifier in use is below the next one to be assigned. *)
Definition fresh_ids (w : world) : Prop :=
  Forall (λ r, id r < next_id w) (table w).

(** No identifier is used twice. *)
Definition unique_ids (w : world) : Prop := NoDup (id <$> table w).

(** None of the next [n] statements faults. *)
Definition quiet (n : nat) (w : world) : Prop :=
  Forall (λ b, b = false) (take n (oracle w)).

(** The statements sent between two worlds, each with its verdict. *)
Definition issued (w w' : world) : list (statement * bool) :=
  drop (length (trace w)) (trace w').

Inductive fault := QueryError.

Inductive answer (A : Type) :=
| Value (a : A)
| Raise (e : fault).
Arguments Value {A} a.
Arguments Raise {A} e.

(** Computations over the database that may throw. *)
Definition DB (A : Type) : Type := world → answer A * world.

Definition ret {A} (a : A) : DB A := λ w, (Value a, w).

Definition bind {A B} (m : DB A) (k : A → DB B) : DB B :=
  λ w, match m w with
       | (Value a, w') => k a w'
       | (Raise e, w') => (Raise e, w')
       end.

(** [try { body } catch (err) { handler }]; the handlers of the router
    do not throw, so the result is a plain state transformer. *)
Definition try_catch {A} (body : DB A) (handler : fault → A) : world → A * world :=
  λ w, match body w with
       | (Value a, w') => (a, w')
       | (Raise e, w') => (handler e, w')
       end.

Notation "'let*' x := m 'in' k" := (bind m (λ x, k))
  (at level 10, x name, m at level 100, k at level 200).

Section Router.

(** MySQL's comparison of the integer [id] column with a text value. *)
Variable text_matches : jsstring → Z → bool.

Definition matches (p : param) (i : Z) : bool :=
  match p with
  | Text s => text_matches s i
  | Num n => bool_decide (n = i)
  end.

(** Modelled from the spec: the [products] table behind [pool] ([../db]
    and the MySQL server are not part of the sources).  Identifiers are
    assigned by the server, one after the other; a row keeps the values it
    was given, [undefined] being sent as [NULL]; an update or a delete
    reports the number of rows its [WHERE] matched. *)
Definition execute (q : statement) (t : list row) (next : Z) : result * list row * Z :=
  match q with
  | SelectAll => (RowData (order_by_id_desc t), t, next)
  | SelectById p => (RowData (filter (λ r, matches p (id r) = true) t), t, next)
  | Insert n p d c i =>
      let r := mkRow next (default VNull n) (default VNull p) (default VNull d)
                     (default VNull c) (default VNull i) in
      (Header next 1, t ++ [r], next + 1)
  | Update n p d c i k =>
      let upd r :=
        if matches k (id r)
        then mkRow (id r) (default VNull n) (default VNull p) (default VNull d)
                   (default VNull c) (default VNull i)
        else r in
      (Header 0 (length (filter (λ r, matches k (id r) = true) t)), upd <$> t, next)
  | Delete k =>
      (Header 0 (length (filter (λ r, matches k (id r) = true) t)),
       filter (λ r, matches k (id r) = false) t, next)
  end.

(** [await pool.query(sql, values)]: the oracle says whether this call
    faults; every call is recorded in the trace with that verdict. *)
Definition pool_query (q : statement) : DB result :=
  λ w, match oracle w with
       | true :: o =>
           (Raise QueryError, mkWorld (table w) (next_id w) o (trace w ++ [(q, true)]))
       | o =>
           let '(r, t, n) := execute q (table w) (next_id w) in
           (Value r, mkWorld t n (tail o) (trace w ++ [(q, false)]))
       end.

Inductive json :=
| Rows (rows : list row)
| Row (r : option row)
| Message (message : string).

Record response := mkResponse { status : Z; body : json }.

(** [res.json(x)] and [res.status(n).json(x)]. *)
Definition res_json (x : json) : response := mkResponse 200 x.
Definition res_status_json (n : Z) (x : json) : response := mkResponse n x.

(** [router.get("/")] *)
Definition router_get : world → response * world :=
  try_catch
    (let* rows := pool_query SelectAll in
     ret (res_json (Rows (rows_of rows))))
    (λ _, res_status_json 500 (Message "Failed to fetch products")).

(** [router.get("/:id")] *)
Definition router_get_id (params_id : jsstring) : world → response * world :=
  try_catch
    (let* rows := pool_query (SelectById (Text params_id)) in
     let products := rows_of rows in
     if bool_decide (length products = O) then
       ret (res_status_json 404 (Message "Product not found"))
     else ret (res_json (Row (head products))))
    (λ _, res_status_json 500 (Message "Failed to fetch product")).

(** [router.post("/")] *)
Definition router_post (req_body : obj) : world → response * world :=
  try_catch
    (let name := req_body !! "name" in
     let price := req_body !! "price" in
     let description := req_body !! "description" in
     let category := req_body !! "category" in
     let image := req_body !! "image" in
     if Js.lnot name || Js.lnot price || Js.lnot description || Js.lnot category then
       ret (res_status_json 400 (Message "Missing required fields"))
     else
       let* result :=
         pool_query (Insert name price description category
                            (Some (nullish image VNull))) in
       let id := insertId result in
       let* rows := pool_query (SelectById (Num id)) in
       let products := rows_of rows in
       ret (res_status_json 201 (Row (head products))))
    (λ _, res_status_json 500 (Message "Failed to create product")).

(** [router.put("/:id")] *)
Definition router_put (params_id : jsstring) (req_body : obj) : world → response * world :=
  try_catch
    (let name := req_body !! "name" in
     let price := req_body !! "price" in
     let description := req_body !! "description" in
     let category := req_body !! "category" in
     let image := req_body !! "image" in
     let id := params_id in
     let* result :=
       pool_query (Update name price description category
                          (Some (nullish image VNull)) (Text id)) in
     if bool_decide (affectedRows result = O) then
       ret (res_status_json 404 (Message "Product not found"))
     else
       let* rows := pool_query (SelectById (Text id)) in
       let products := rows_of rows in
       ret (res_json (Row (head products))))
    (λ _, res_status_json 500 (Message "Failed to update product")).

(** [router.delete("/:id")] *)
Definition router_delete (params_id : jsstring) : world → response * world :=
  try_catch
    (let id := params_id in
     let* result := pool_query (Delete (Text id)) in
     if bool_decide (affectedRows result = O) then
       ret (res_status_json 404 (Message "Product not found"))
     else ret (res_json (Message "Product deleted")))
    (λ _, res_status_json 500 (Message "Failed to delete product")).

(** The fields a creation requires, and the two ways the specification's
    sentences read "present". *)
Definition required : list string := ["name"; "price"; "description"; "category"].

Definition all_present (req_body : obj) : Prop :=
  ∀ k, k ∈ required → is_Some (req_body !! k).

Definition all_truthy (req_body : obj) : Prop :=
  ∀ k, k ∈ required → ∃ v, req_body !! k = Some v ∧ truthy v = true.

(** The columns of a row are those bound from a request body. *)
Definition row_from_body (r : row) (req_body : obj) : Prop :=
  name r = default VNull (req_body !! "name")
  ∧ price r = default VNull (req_body !! "price")
  ∧ description r = default VNull (req_body !! "description")
  ∧ category r = default VNull (req_body !! "category")
  ∧ image r = nullish (req_body !! "image") VNull.

(** The five operations, for statements about all of them. *)
Inductive operation :=
| List
| Get (params_id : jsstring)
| Create (req_body : obj)
| Replace (params_id : jsstring) (req_body : obj)
| Remove (params_id : jsstring).

Definition handle (op : operation) : world → response * world :=
  match op with
  | List => router_get
  | Get i => router_get_id i
  | Create b => router_post b
  | Replace i b => router_put i b
  | Remove i => router_delete i
  end.

End Router.

End Backend.

(** ** Sample data *)

Module Sample.

(** The form of the specification's example: title "Shirt", price "10",
    description "d", category "men" and a data URI as image. *)
Definition shirt : Form.state :=
  Form.mkState (str "Shirt") (str "10") (str "d") (str "men")
               (str "data:image/png;base64,AAAA") (str "data:image/png;base64,AAAA")
               false None None.

(** The same form while its request is in flight. *)
Definition shirt_in_flight : Form.state := (Form.handleSubmit_begin shirt).1.

(** The events that lead from the empty form to [shirt_in_flight]. *)
Definition shirt_events : list Form.event :=
  [ Form.ChangeTitle (str "Shirt"); Form.ChangePrice (str "10");
    Form.ChangeDescription (str "d"); Form.ChangeCategory (str "men");
    Form.ChooseFile (Some {| Form.type := str "image/png" |});
    Form.FileRead (Some (str "data:image/png;base64,AAAA"));
    Form.Submit ].

(** A filled form still showing the confirmation of an earlier creation. *)
Definition shirt_after_success : Form.state :=
  Form.setSuccess (Some (str "Product created successfully!")) shirt.

(** A form whose image cell holds a single space. *)
Definition shirt_space_image : Form.state := Form.setImageB64 [32%N] shirt.

(** A created record that carries a rating of its own:
    [{ id: 21, title: "Shirt", price: 10, rating: { rate: 4.5, count: 10 } }]. *)
Definition rating_4_5 : jsval :=
  VObj (<["rate" := VNum (Lit false 45 (-1))]>
         (<["count" := VNum (Lit false 10 0)]> ∅)).

Definition rated : gmap string jsval :=
  <["id" := VNum (Lit false 21 0)]>
    (<["title" := VStr (str "Shirt")]>
      (<["price" := VNum (Lit false 10 0)]>
        (<["rating" := rating_4_5]> ∅))).

(** A text matches an identifier when it is its decimal spelling. *)
Definition decimal_matches (s : list N) (i : Z) : bool :=
  bool_decide (Number s = num_of_Z i).

Definition row1 : Backend.row :=
  Backend.mkRow 1 (VStr (str "Shirt")) (VNum (Lit false 10 0)) (VStr (str "d"))
                (VStr (str "men")) VNull.
Definition row2 : Backend.row :=
  Backend.mkRow 2 (VStr (str "Ring")) (VNum (Lit false 1999 (-2))) (VStr (str "r"))
                (VStr (str "jewelery")) (VStr (str "data:image/png;base64,AAAA")).
Definition row5 : Backend.row :=
  Backend.mkRow 5 (VStr (str "Lamp")) (VStr (str "7")) (VStr (str "l"))
                (VStr (str "home")) VNull.

(** A table of three rows, the next identifier being 6, and no fault
    ahead. *)
Definition shop : Backend.world :=
  Backend.mkWorld [row1; row5; row2] 6 [] [].

(** The same table when the next statement faults. *)
Definition shop_down : Backend.world :=
  Backend.mkWorld [row1; row5; row2] 6 [true] [].

(** The same table when the second statement to come faults. *)
Definition shop_flaky : Backend.world :=
  Backend.mkWorld [row1; row5; row2] 6 [false; true] [].

(** A picture and a document, as the file input hands them over. *)
Definition picture : Form.file := {| Form.type := str "image/png" |}.
Definition document : Form.file := {| Form.type := str "application/pdf" |}.

(** A record without a rating. *)
Definition unrated : gmap string jsval :=
  <["id" := VNum (Lit false 22 0)]> (<["title" := VStr (str "Mug")]> ∅).

(** [{ name: "Cap", price: -5, description: "c", category: "hats" }] *)
Definition cap : gmap string jsval :=
  <["name" := VStr (str "Cap")]>
    (<["price" := VNum (Lit true 5 0)]>
      (<["description" := VStr (str "c")]>
        (<["category" := VStr (str "hats")]> ∅))).

(** The same body with an empty name, with a price of zero, and without
    a price. *)
Definition cap_unnamed : gmap string jsval := <["name" := VStr []]> cap.
Definition cap_free : gmap string jsval := <["price" := VNum (Lit false 0 0)]> cap.
Definition cap_unpriced : gmap string jsval := delete "price" cap.

End Sample.

(** ** Properties of the JavaScript model *)

Lemma trimStart_nil_blank (s : list N) : trimStart s = [] ↔ blank s = true.
Proof.
  induction s as [|c r IH]; simpl; [done|].
  destruct (is_ws c); simpl; [exact IH|]. split; discriminate.
Qed.

Lemma blank_trimStart (s : list N) : blank (trimStart s) = blank s.
Proof.
  induction s as [|c r IH]; simpl; [done|].
  destruct (is_ws c) eqn:E; simpl; [exact IH|]. by rewrite E.
Qed.

Lemma blank_reverse (s : list N) : blank (reverse s) = blank s.
Proof.
  unfold blank. apply eq_true_iff_eq. rewrite !forallb_forall.
  split; intros H x Hx; apply H; apply list_elem_of_In;
    apply list_elem_of_In in Hx; set_solver.
Qed.

Lemma trim_nil_blank (s : list N) : trim s = [] ↔ blank s = true.
Proof.
  unfold trim, trimEnd.
  rewrite <- (blank_trimStart s), <- (blank_reverse (trimStart s)).
  rewrite <- trimStart_nil_blank. split.
  - intros H. apply (f_equal reverse) in H. by rewrite reverse_involutive in H.
  - intros ->. done.
Qed.

(** [s.trim().length > 0] fails exactly on the blank strings. *)
Lemma trim_length_pos (s : list N) :
  (0 <? length (trim s))%nat = negb (blank s).
Proof.
  destruct (blank s) eqn:E; simpl.
  - apply trim_nil_blank in E. by rewrite E.
  - destruct (trim s) eqn:T; [|done].
    assert (blank s = true) by by apply trim_nil_blank. congruence.
Qed.

Lemma startsWith_data_not_blank (s : list N) :
  startsWith s (str "data:") = true → blank s = false.
Proof.
  destruct s as [|c r]; [discriminate|]. intros H.
  change ((100 =? c)%N && startsWith r (str "ata:") = true) in H.
  apply andb_prop in H as [H _]. apply N.eqb_eq in H. by subst c.
Qed.

Lemma trimStart_idem (s : list N) : trimStart (trimStart s) = trimStart s.
Proof.
  induction s as [|c r IH]; simpl; [done|].
  destruct (is_ws c) eqn:E; [exact IH|]. simpl. by rewrite E.
Qed.

Lemma trimStart_snoc (l : list N) (c : N) :
  is_ws c = false → ∃ x, trimStart (l ++ [c]) = x ++ [c].
Proof.
  intros Hc. induction l as [|a l IH]; simpl.
  - exists []. by rewrite Hc.
  - destruct (is_ws a); [exact IH|]. by exists (a :: l).
Qed.

Lemma trimEnd_cons (c : N) (r : list N) :
  is_ws c = false → ∃ y, trimEnd (c :: r) = c :: y.
Proof.
  intros Hc. unfold trimEnd. rewrite reverse_cons.
  destruct (trimStart_snoc (reverse r) c Hc) as [x ->].
  exists (reverse x). by rewrite reverse_app.
Qed.

Lemma trimStart_head (s : list N) :
  trimStart s = [] ∨ ∃ c r, trimStart s = c :: r ∧ is_ws c = false.
Proof.
  induction s as [|c r IH]; simpl; [by left|].
  destruct (is_ws c) eqn:E; [exact IH|]. right. by exists c, r.
Qed.

(** Trimming twice is trimming once: a trimmed string has no white space
    left at either end. *)
Lemma trim_idem (s : list N) : trim (trim s) = trim s.
Proof.
  unfold trim.
  assert (E : trimStart (trimEnd (trimStart s)) = trimEnd (trimStart s)).
  { destruct (trimStart_head s) as [->|(c & r & -> & Hc)]; [done|].
    destruct (trimEnd_cons c r Hc) as [y ->]. simpl. by rewrite Hc. }
  rewrite E. unfold trimEnd. by rewrite reverse_involutive, trimStart_idem.
Qed.

(** ** The submission form *)

Section FormProperties.
Import Form.

Lemma allValid_not_submitting (s : state) : allValid s = true → submitting s = false.
Proof.
  unfold allValid. intros H. apply andb_prop in H as [_ H].
  by destruct (submitting s).
Qed.

Lemma step_inv (e : event) (p p' : page) :
  page_inv p → step e p = Some p' → page_inv p'.
Proof.
  intros [Hp Hi] H. destruct p as [s n k]. simpl in *.
  destruct e; simpl in H.
  1-4: by inversion H.
  - destruct f as [f|]; simpl in H; [|by inversion H].
    destruct (negb _); by inversion H.
  - destruct k; [done|]. destruct r as [b|]; simpl in H.
    + destruct (startsWith b _) eqn:E; [|done]. inversion H. split; simpl; auto.
    + by inversion H.
  - inversion H. split; simpl; auto.
  - unfold submit_disabled in H. destruct (allValid s) eqn:V; [|done].
    apply allValid_not_submitting in V. rewrite V in Hp.
    inversion H. subst. split; simpl; auto.
  - destruct n as [|n]; [done|]. destruct (submitting s) eqn:S; [|done].
    injection Hp as ->. inversion H. destruct o; split; simpl; auto.
Qed.

Lemma run_inv (es : list event) (p p' : page) :
  page_inv p → run es p = Some p' → page_inv p'.
Proof.
  revert p. induction es as [|e es IH]; simpl; intros p Hp H.
  - by inversion H; subst.
  - destruct (step e p) as [q|] eqn:E; [|done]. eauto using step_inv.
Qed.

Lemma reachable_inv (p : page) : reachable p → page_inv p.
Proof.
  intros [es H]. eapply run_inv; [|exact H]. split; simpl; auto.
Qed.

Lemma allValid_false_iff (s : state) :
  allValid s = false ↔ spec_invalid (λ i, blank i = true) s.
Proof.
  unfold allValid, spec_invalid. rewrite !trim_length_pos.
  destruct (blank (title s)), (blank (description s)), (blank (category s)),
    (num_gt0 (Number (price s))), (blank (imageB64 s)), (submitting s);
    simpl; intuition congruence.
Qed.

(** C3. The form is not submittable exactly when its title, description
    or category is blank (empty or white space only), or [Number(price)]
    is not above zero, or it has no image payload, or a submission is in
    flight; it is submittable otherwise.  This holds for every state with
    "no payload" read as a blank image cell, and for every reachable state
    with "no payload" read as an empty image cell. *)
Theorem allValid_spec :
  (∀ s, allValid s = false ↔ spec_invalid (λ i, blank i = true) s)
  ∧ (∀ s, allValid s = true ↔ ¬ spec_invalid (λ i, blank i = true) s)
  ∧ (∀ p, reachable p →
       (allValid (form p) = false ↔ spec_invalid (λ i, i = []) (form p))
       ∧ (allValid (form p) = true ↔ ¬ spec_invalid (λ i, i = []) (form p))).
Proof.
  assert (A : ∀ s, allValid s = true ↔ ¬ spec_invalid (λ i, blank i = true) s).
  { intros s. rewrite <- allValid_false_iff. by destruct (allValid s). }
  split; [exact allValid_false_iff|]. split; [exact A|].
  intros p Hp. apply reachable_inv in Hp as [_ Hi].
  assert (E : spec_invalid (λ i, i = []) (form p)
              ↔ spec_invalid (λ i, blank i = true) (form p)).
  { unfold spec_invalid. destruct Hi as [Hi|Hi].
    - rewrite Hi. simpl. tauto.
    - apply startsWith_data_not_blank in Hi. rewrite Hi.
      assert (imageB64 (form p) ≠ []) by (intros E; by rewrite E in Hi).
      intuition congruence. }
  rewrite E. split; [apply allValid_false_iff | apply A].
Qed.

Lemma allValid_spec_witness :
  Form.reachable (Form.mkPage Sample.shirt_in_flight 1 0)
  ∧ Form.allValid Sample.shirt = true
  ∧ Form.allValid Sample.shirt_in_flight = false
  ∧ Form.spec_invalid (λ i, i = []) Sample.shirt_in_flight.
Proof.
  assert (R : Form.reachable (Form.mkPage Sample.shirt_in_flight 1 0)).
  { exists Sample.shirt_events. vm_compute. reflexivity. }
  split; [exact R|]. split; [vm_compute; reflexivity|].
  split; [vm_compute; reflexivity|].
  apply (proj1 (proj2 (proj2 allValid_spec) _ R)). vm_compute. reflexivity.
Defined.

(** C8. While the submitting flag is set the form is not valid and the
    submit button is disabled; on every reachable page at most one request
    is in flight, and one is exactly when the flag is set, so that a submit
    event is refused while a request is outstanding; and the only event
    that clears the flag is the settling of the request in flight. *)
Theorem no_second_submission :
  (∀ s, submitting s = true → allValid s = false ∧ submit_disabled s = true)
  ∧ (∀ p, reachable p →
       (pending p ≤ 1)%nat
       ∧ (submitting (form p) = true ↔ pending p = 1%nat)
       ∧ ((0 < pending p)%nat → step Submit p = None))
  ∧ (∀ e p p', step e p = Some p' →
       submitting (form p) = true → submitting (form p') = false →
       (0 < pending p)%nat ∧ pending p' = pred (pending p) ∧ ∃ o, e = Settle o).
Proof.
  assert (A : ∀ s, submitting s = true → allValid s = false).
  { intros s H. destruct (allValid s) eqn:V; [|done].
    apply allValid_not_submitting in V. congruence. }
  split; [|split].
  - intros s H. unfold submit_disabled. by rewrite (A s H).
  - intros p Hp. apply reachable_inv in Hp as [Hp _].
    destruct (submitting (form p)) eqn:S; rewrite Hp.
    + split; [lia|]. split; [done|]. intros _. simpl.
      unfold submit_disabled. by rewrite (A _ S).
    + split; [lia|]. split; [split; discriminate|]. lia.
  - intros e [s n k] p' H S S'. simpl in *.
    destruct e; simpl in H.
    1-4: inversion H; subst; simpl in S'; congruence.
    + destruct f as [f|]; simpl in H; [destruct (negb _)|];
        inversion H; subst; simpl in S'; congruence.
    + destruct k; [done|]. destruct r as [b|]; simpl in H;
        [destruct (startsWith b _); [|done]|];
        inversion H; subst; simpl in S'; congruence.
    + inversion H; subst; simpl in S'; congruence.
    + destruct (submit_disabled s); [done|]. inversion H; subst. done.
    + destruct n as [|n]; [done|]. inversion H; subst. simpl.
      split; [lia|]. split; [done|]. by exists o.
Qed.

Lemma no_second_submission_witness :
  Form.allValid Sample.shirt_in_flight = false
  ∧ Form.submit_disabled Sample.shirt_in_flight = true
  ∧ Form.step Form.Submit (Form.mkPage Sample.shirt_in_flight 1 0) = None
  ∧ ∃ o, Form.Settle (Form.NotOk 500 []) = Form.Settle o.
Proof.
  assert (R : Form.reachable (Form.mkPage Sample.shirt_in_flight 1 0)).
  { exists Sample.shirt_events. vm_compute. reflexivity. }
  destruct no_second_submission as (A & B & C).
  destruct (A Sample.shirt_in_flight eq_refl) as [A1 A2].
  destruct (B _ R) as (_ & _ & B3).
  split; [exact A1|]. split; [exact A2|]. split; [apply B3; simpl; lia|].
  eapply (C (Form.Settle (Form.NotOk 500 []))
            (Form.mkPage Sample.shirt_in_flight 1 0)); reflexivity.
Defined.

Lemma settle_failed_fields (o : outcome) (s : state) :
  failed o = true →
  fields (handleSubmit_settle o s).1 = fields s
  ∧ success (handleSubmit_settle o s).1 = success s
  ∧ submitting (handleSubmit_settle o s).1 = false
  ∧ is_Some (error (handleSubmit_settle o s).1)
  ∧ (handleSubmit_settle o s).2 = None.
Proof. destruct o; [| |discriminate]; intros _; simpl; eauto 10. Qed.

(** C10, amended. A submission that fails (the request is rejected or the
    status is not a success) leaves the six input cells as they were:
    neither half of [handleSubmit] touches them, [onSuccess] is not
    called, and what the attempt changes is the error message (set), the
    success message (cleared) and the submitting flag (cleared).  A
    successful response empties the six cells, and a settled request that
    changed them was a success. *)
Theorem failed_submission_keeps_fields :
  (∀ o s, failed o = true →
     fields (handleSubmit_begin s).1 = fields s
     ∧ (∀ s1, fields (handleSubmit_settle o s1).1 = fields s1
              ∧ success (handleSubmit_settle o s1).1 = success s1
              ∧ (handleSubmit_settle o s1).2 = None)
     ∧ ∃ m, attempt o s = setSubmitting false (setError (Some m) (setSuccess None s)))
  ∧ (∀ data s, fields (attempt (Ok data) s) = ([], [], [], [], [], []))
  ∧ (∀ o s, fields (handleSubmit_settle o s).1 ≠ fields s → failed o = false).
Proof.
  split; [|split].
  - intros o s F. split; [done|]. split.
    + intros s1. destruct (settle_failed_fields o s1 F) as (? & ? & _ & _ & ?).
      done.
    + destruct o; [| |discriminate]; eexists; reflexivity.
  - done.
  - intros o s H. destruct (failed o) eqn:F; [|done].
    destruct (settle_failed_fields o s F) as (? & _). done.
Qed.

Lemma failed_submission_keeps_fields_witness :
  Form.fields (Form.attempt (Form.NotOk 500 (str "oops")) Sample.shirt_after_success)
  = Form.fields Sample.shirt_after_success
  ∧ Form.error (Form.attempt (Form.NotOk 500 (str "oops")) Sample.shirt_after_success)
    = Some (str "HTTP 500 " ++ [8212%N] ++ str " oops").
Proof.
  destruct (proj1 failed_submission_keeps_fields
              (Form.NotOk 500 (str "oops")) Sample.shirt_after_success eq_refl)
    as (_ & B & _).
  split; [apply (B (Form.handleSubmit_begin Sample.shirt_after_success).1)|].
  vm_compute. reflexivity.
Defined.

(** C10 as stated fails: a failed submission also clears the success
    message left by an earlier creation. *)
Lemma failed_submission_clears_success :
  Form.failed (Form.NotOk 500 (str "oops")) = true
  ∧ ¬ Form.only_error_and_flag_differ Sample.shirt_after_success
        (Form.attempt (Form.NotOk 500 (str "oops")) Sample.shirt_after_success).
Proof. split; [done|]. intros [_ H]. vm_compute in H. discriminate. Qed.

(** *** Choosing an image *)

(** X1. Choosing a file never changes the six input cells at once, so the
    form is as submittable as before, with the image it already held: a
    read is started exactly for a file whose type begins with [image/];
    no file leaves the whole state alone; any other file only sets the
    error message.  A read that fails keeps the cells as well. *)
Theorem image_choice_keeps_cells (f : option file) (s : state) :
  fields (handleImageChange_begin f s).1 = fields s
  ∧ allValid (handleImageChange_begin f s).1 = allValid s
  ∧ ((handleImageChange_begin f s).2 = true
     ↔ ∃ x, f = Some x ∧ startsWith (type x) (str "image/") = true)
  ∧ (f = None → (handleImageChange_begin f s).1 = s)
  ∧ (∀ x, f = Some x → startsWith (type x) (str "image/") = false →
       (handleImageChange_begin f s).1
       = setError (Some (str "Please choose a valid image file.")) s)
  ∧ fields (handleImageChange_settle None s) = fields s.
Proof.
  destruct f as [x|]; simpl.
  - destruct (startsWith (type x) (str "image/")) eqn:E; simpl.
    + repeat split; try done.
      * intros _. by exists x.
      * intros y [= <-]. congruence.
    + repeat split; try done.
      intros (y & [= <-] & ?). congruence.
  - repeat split; try done. by intros (y & ? & _).
Qed.

Lemma step_preview (e : event) (p p' : page) :
  previewSrc (form p) = imageB64 (form p) →
  step e p = Some p' → previewSrc (form p') = imageB64 (form p').
Proof.
  intros Hp H. destruct p as [s n k]. simpl in *.
  destruct e; simpl in H.
  1-4: by inversion H.
  - destruct f as [f|]; simpl in H; [|by inversion H].
    destruct (negb _); by inversion H.
  - destruct k; [done|]. destruct r as [b|]; simpl in H.
    + destruct (startsWith b _); [|done]. by inversion H.
    + by inversion H.
  - by inversion H.
  - destruct (submit_disabled s); [done|]. by inversion H.
  - destruct n as [|n]; [done|]. inversion H. by destruct o.
Qed.

Lemma run_preview (es : list event) (p p' : page) :
  previewSrc (form p) = imageB64 (form p) →
  run es p = Some p' → previewSrc (form p') = imageB64 (form p').
Proof.
  revert p. induction es as [|e es IH]; simpl; intros p Hp H.
  - by inversion H; subst.
  - destruct (step e p) as [q|] eqn:E; [|done]. eauto using step_preview.
Qed.

(** X2. On every reachable page the preview source is the image payload
    itself, and the preview is displayed exactly when the image
    requirement of validity is met. *)
Theorem preview_is_payload (p : page) :
  reachable p →
  previewSrc (form p) = imageB64 (form p)
  ∧ preview_shown (form p) = (0 <? length (trim (imageB64 (form p))))%nat.
Proof.
  intros R.
  assert (E : previewSrc (form p) = imageB64 (form p)).
  { destruct R as [es H]. by eapply run_preview, H. }
  split; [exact E|]. unfold preview_shown. rewrite E, trim_length_pos.
  destruct (reachable_inv p R) as [_ [->|H]]; [done|].
  rewrite (startsWith_data_not_blank _ H). simpl.
  rewrite bool_decide_eq_false_2; [done|]. intros E'. by rewrite E' in H.
Qed.

(** *** What is sent *)

(** X3. The request body built from a submittable form has a title, a
    description and a category that are not empty and carry no white space
    at either end, a price above zero, and the image cell, which is not
    blank, as its image. *)
Theorem payload_well_formed (s : state) :
  allValid s = true →
  let payload := (handleSubmit_begin s).2 in
  ProductPayload.title payload ≠ []
  ∧ trim (ProductPayload.title payload) = ProductPayload.title payload
  ∧ ProductPayload.description payload ≠ []
  ∧ trim (ProductPayload.description payload) = ProductPayload.description payload
  ∧ ProductPayload.category payload ≠ []
  ∧ trim (ProductPayload.category payload) = ProductPayload.category payload
  ∧ num_gt0 (ProductPayload.price payload) = true
  ∧ ProductPayload.image payload = imageB64 s
  ∧ blank (ProductPayload.image payload) = false.
Proof.
  unfold allValid. rewrite !andb_true_iff, !trim_length_pos, !negb_true_iff.
  intros (((((Ht & Hp) & Hd) & Hc) & Hi) & _). simpl.
  assert (N : ∀ x, blank x = false → trim x ≠ []).
  { intros x Hx E. apply trim_nil_blank in E. congruence. }
  rewrite !trim_idem. auto 10.
Qed.

(** *** How an attempt ends *)


End FormProperties.

(** ** The viewer's insertion point *)

Section ViewerProperties.
Import Viewer.

(** C4, amended. The callback puts the created record at the head of the
    held list and leaves the rest of the list, the loading flag and the
    error as they were.  The stored record has the zero rating whatever
    the created record carried, and every other property of the created
    record unchanged; the created record's own rating survives only when
    there was none or it was the zero rating already. *)
Theorem onSuccess_prepends_zero_rated (created : gmap string jsval) (s : state) :
  ∃ stored,
    products (onSuccess created s) = stored :: products s
    ∧ loading (onSuccess created s) = loading s
    ∧ error (onSuccess created s) = error s
    ∧ stored !! "rating" = Some zero_rating
    ∧ (∀ k, k ≠ "rating" → stored !! k = created !! k)
    ∧ (rating_kept_or_zero created stored
       ↔ created !! "rating" = None ∨ created !! "rating" = Some zero_rating).
Proof.
  exists (<["rating" := zero_rating]> created).
  split; [done|]. split; [done|]. split; [done|].
  split; [apply lookup_insert_eq|].
  split; [intros k Hk; by apply lookup_insert_ne|].
  unfold rating_kept_or_zero. rewrite lookup_insert_eq.
  destruct (created !! "rating") as [r|]; simpl.
  - split; [intros [= <-]; by right | intros [|[= ->]]; done].
  - split; [by left | done].
Qed.

(** *** Loading and rendering *)




(** X7. The stock cell of a record added through the callback shows the
    number 0, whatever the created record carried; the cell of a record
    without a rating, or with a null one, shows "-". *)
Theorem stock_cell_of_created :
  (∀ created s, ∃ stored,
     products (onSuccess created s) = stored :: products s
     ∧ stock_cell stored = VNum (Lit false 0 0))
  ∧ (∀ p : gmap string jsval,
       p !! "rating" = None ∨ p !! "rating" = Some VNull →
       stock_cell p = VStr (str "-")).
Proof.
  split.
  - intros created s. eexists. split; [reflexivity|].
    unfold stock_cell. by rewrite lookup_insert_eq.
  - intros p [H|H]; unfold stock_cell; by rewrite H.
Qed.

End ViewerProperties.

(** C4 as stated fails: a rating carried by the created record is not
    preserved, the stored record has the zero rating. *)
Lemma onSuccess_overwrites_rating :
  Sample.rated !! "rating" = Some Sample.rating_4_5
  ∧ ∃ stored,
      Viewer.products (Viewer.onSuccess Sample.rated Viewer.initial) = [stored]
      ∧ stored !! "rating" = Some Viewer.zero_rating
      ∧ ¬ Viewer.rating_kept_or_zero Sample.rated stored.
Proof.
  split; [reflexivity|]. eexists. split; [reflexivity|].
  split; [reflexivity|]. unfold Viewer.rating_kept_or_zero.
  intros H. vm_compute in H. discriminate.
Qed.

(** ** The router *)

Section RouterProperties.
Import Backend.

Variable text_matches : list N → Z → bool.

Local Abbreviation router_get := (router_get text_matches).
Local Abbreviation router_get_id := (router_get_id text_matches).
Local Abbreviation router_post := (router_post text_matches).
Local Abbreviation router_put := (router_put text_matches).
Local Abbreviation router_delete := (router_delete text_matches).
Local Abbreviation pool_query := (pool_query text_matches).
Local Abbreviation execute := (execute text_matches).
Local Abbreviation matches := (matches text_matches).

(** *** Ordering *)

Lemma insert_desc_perm (r : row) (l : list row) : insert_desc r l ≡ₚ r :: l.
Proof.
  induction l as [|x l IH]; simpl; [done|].
  destruct (id x <=? id r); [done|]. rewrite IH. apply Permutation_swap.
Qed.

Lemma order_by_id_desc_perm (l : list row) : order_by_id_desc l ≡ₚ l.
Proof.
  induction l as [|r l IH]; simpl; [done|].
  by rewrite insert_desc_perm, IH.
Qed.

Lemma insert_desc_hd (a r : row) (l : list row) :
  id_desc a r → HdRel id_desc a l → HdRel id_desc a (insert_desc r l).
Proof.
  intros Har Hl. destruct l as [|x l]; simpl; [by constructor|].
  destruct (id x <=? id r); constructor; [done|]. by inversion Hl.
Qed.

Lemma insert_desc_sorted (r : row) (l : list row) :
  Sorted id_desc l → Sorted id_desc (insert_desc r l).
Proof.
  induction 1 as [|x l Hs IH Hx]; simpl.
  - by repeat constructor.
  - destruct (id x <=? id r) eqn:E.
    + constructor; [by constructor|]. constructor. unfold id_desc. lia.
    + constructor; [exact IH|]. apply insert_desc_hd; [|exact Hx].
      unfold id_desc. lia.
Qed.

Lemma order_by_id_desc_sorted (l : list row) : Sorted id_desc (order_by_id_desc l).
Proof.
  induction l as [|r l IH]; simpl; [constructor|]. by apply insert_desc_sorted.
Qed.

(** *** One statement *)

Lemma quiet_head (n : nat) (w : world) :
  quiet (S n) w → head (oracle w) ≠ Some true.
Proof.
  unfold quiet. destruct (oracle w) as [|b o]; simpl; [done|].
  intros H. inversion H; subst. done.
Qed.

Lemma quiet_tail (n : nat) (w : world) (t : list row) (k : Z) tr :
  quiet (S n) w → quiet n (mkWorld t k (tail (oracle w)) tr).
Proof.
  unfold quiet. simpl. destruct (oracle w) as [|b o]; simpl.
  - intros _. by rewrite take_nil.
  - intros H. by inversion H.
Qed.

Lemma pool_query_ok (q : statement) (w : world) :
  head (oracle w) ≠ Some true →
  pool_query q w =
    (Value (execute q (table w) (next_id w)).1.1,
     mkWorld (execute q (table w) (next_id w)).1.2
             (execute q (table w) (next_id w)).2
             (tail (oracle w)) (trace w ++ [(q, false)])).
Proof.
  unfold Backend.pool_query. intros H.
  destruct (oracle w) as [|[] o]; simpl in *; [|done|];
    by destruct (execute q (table w) (next_id w)) as [[r t] n].
Qed.

Lemma pool_query_fault (q : statement) (w : world) :
  head (oracle w) = Some true →
  pool_query q w =
    (Raise QueryError,
     mkWorld (table w) (next_id w) (tail (oracle w)) (trace w ++ [(q, true)])).
Proof.
  unfold Backend.pool_query. intros H.
  by destruct (oracle w) as [|[] o]; simpl in *.
Qed.

Lemma head_true_dec (w : world) :
  head (oracle w) = Some true ∨ head (oracle w) ≠ Some true.
Proof. destruct (oracle w) as [|[] o]; simpl; auto. Qed.

Lemma router_get_ok (w : world) :
  head (oracle w) ≠ Some true →
  router_get w =
    (mkResponse 200 (Rows (order_by_id_desc (table w))),
     mkWorld (table w) (next_id w) (tail (oracle w))
             (trace w ++ [(SelectAll, false)])).
Proof.
  intros Q. unfold Backend.router_get, try_catch, bind.
  by rewrite (pool_query_ok _ _ Q).
Qed.

(** C5. When the statement does not fault, the list operation answers 200
    with all the rows of the table, each once, in descending order of
    identifier, and leaves the table as it was. *)
Theorem list_returns_all_desc (w : world) :
  quiet 1 w →
  ∃ rows,
    (router_get w).1 = mkResponse 200 (Rows rows)
    ∧ rows ≡ₚ table w
    ∧ Sorted id_desc rows
    ∧ table (router_get w).2 = table w
    ∧ issued w (router_get w).2 = [(SelectAll, false)].
Proof.
  intros Q. apply quiet_head in Q.
  exists (order_by_id_desc (table w)). rewrite (router_get_ok w Q). simpl.
  split; [done|]. split; [apply order_by_id_desc_perm|].
  split; [apply order_by_id_desc_sorted|]. split; [done|].
  unfold issued. simpl. by rewrite drop_app_length.
Qed.

(** *** Creation *)

Lemma not_false_iff (x : option jsval) :
  Js.lnot x = false ↔ ∃ v, x = Some v ∧ truthy v = true.
Proof.
  destruct x as [v|]; simpl.
  - rewrite negb_false_iff. split; [eauto | by intros (? & [= <-] & ?)].
  - split; [done | by intros (? & ? & _)].
Qed.

(** The test of [router.post]'s [if]. *)
Local Abbreviation guard b :=
  (Js.lnot (b !! "name") || Js.lnot (b !! "price")
   || Js.lnot (b !! "description") || Js.lnot (b !! "category")).

Lemma guard_false_iff (b : gmap string jsval) : guard b = false ↔ all_truthy b.
Proof.
  unfold all_truthy, required. rewrite !orb_false_iff, !not_false_iff. split.
  - intros (((Hn & Hp) & Hd) & Hc) k Hk.
    repeat (apply elem_of_cons in Hk as [->|Hk]; [done|]).
    by apply elem_of_nil in Hk.
  - intros H. repeat split; apply H; set_solver.
Qed.

Lemma guard_true_iff (b : gmap string jsval) :
  guard b = true ↔ ∃ k, k ∈ required ∧ Js.lnot (b !! k) = true.
Proof.
  unfold required. rewrite !orb_true_iff. split.
  - intros [[[H|H]|H]|H]; eexists; (split; [|exact H]); set_solver.
  - intros (k & Hk & H).
    repeat (apply elem_of_cons in Hk as [->|Hk]; [tauto|]).
    by apply elem_of_nil in Hk.
Qed.

Lemma router_post_rejects (b : gmap string jsval) (w : world) :
  guard b = true →
  router_post b w = (mkResponse 400 (Message "Missing required fields"), w).
Proof.
  intros G. unfold Backend.router_post, try_catch. by rewrite G.
Qed.

Lemma filter_fresh (n : Z) (t : list row) :
  Forall (λ r, id r < n) t →
  filter (λ r, matches (Num n) (id r) = true) t = [].
Proof.
  induction 1 as [|r t Hr _ IH]; [done|].
  rewrite filter_cons_False; [exact IH|].
  simpl. rewrite bool_decide_eq_true. lia.
Qed.

Lemma router_post_inserts (b : gmap string jsval) (w : world) :
  guard b = false → fresh_ids w → quiet 2 w →
  let r := mkRow (next_id w) (default VNull (b !! "name"))
                 (default VNull (b !! "price"))
                 (default VNull (b !! "description"))
                 (default VNull (b !! "category"))
                 (nullish (b !! "image") VNull) in
  router_post b w =
    (mkResponse 201 (Row (Some r)),
     mkWorld (table w ++ [r]) (next_id w + 1) (tail (tail (oracle w)))
             (trace w ++ [(Insert (b !! "name") (b !! "price") (b !! "description")
                                  (b !! "category") (Some (nullish (b !! "image") VNull)),
                           false);
                          (SelectById (Num (next_id w)), false)])).
Proof.
  intros G F Q r. unfold Backend.router_post, try_catch, bind. rewrite G.
  rewrite (pool_query_ok _ _ (quiet_head _ _ Q)). cbn [fst snd].
  rewrite pool_query_ok by (eapply quiet_head, quiet_tail, Q).
  cbn [fst snd Backend.execute insertId rows_of ret table next_id oracle trace
       from_option id].
  rewrite filter_app, (filter_fresh _ _ F).
  rewrite filter_cons_True by (simpl; by rewrite bool_decide_eq_true).
  simpl. by rewrite <- app_assoc.
Qed.

(** C1, amended. A creation whose body lacks one of name, price,
    description, category, or holds a falsy value there (an empty text,
    zero, NaN, null, false), is answered 400 with a message and touches
    nothing.  A creation whose four required values are all truthy, on a
    table with fresh identifiers and with no fault in its two statements,
    is answered 201 with a row that carries the next identifier and the
    values of the body (null as image when the body has none), and that
    row is added to the table. *)
Theorem create_400_or_201 (b : gmap string jsval) (w : world) :
  ((∃ k, k ∈ required ∧ b !! k = None) →
     router_post b w = (mkResponse 400 (Message "Missing required fields"), w))
  ∧ ((∃ k, k ∈ required ∧ Js.lnot (b !! k) = true) →
     router_post b w = (mkResponse 400 (Message "Missing required fields"), w))
  ∧ (all_truthy b → fresh_ids w → quiet 2 w →
     ∃ r, (router_post b w).1 = mkResponse 201 (Row (Some r))
          ∧ id r = next_id w
          ∧ b !! "name" = Some (name r)
          ∧ b !! "price" = Some (price r)
          ∧ b !! "description" = Some (description r)
          ∧ b !! "category" = Some (category r)
          ∧ image r = nullish (b !! "image") VNull
          ∧ table (router_post b w).2 = table w ++ [r]
          ∧ next_id (router_post b w).2 = next_id w + 1).
Proof.
  split; [|split].
  - intros (k & Hk & H). apply router_post_rejects, guard_true_iff.
    exists k. by rewrite H.
  - intros H. by apply router_post_rejects, guard_true_iff.
  - intros T F Q. rewrite (router_post_inserts b w) by (by try apply guard_false_iff).
    eexists. split; [reflexivity|]. simpl. split; [done|].
    destruct (T "name") as (? & -> & _); [set_solver|].
    destruct (T "price") as (? & -> & _); [set_solver|].
    destruct (T "description") as (? & -> & _); [set_solver|].
    destruct (T "category") as (? & -> & _); [set_solver|].
    done.
Qed.

(** C2, amended. With a truthy name, description and category, a creation
    is rejected as incomplete exactly when its price is absent or falsy
    (zero, NaN, an empty text, null, false); any other price, a negative
    number or a text that is no number included, passes the check, and the
    answer is then 201 or, after a fault, 500. *)
Theorem create_price_check (b : gmap string jsval) (w : world) :
  (∀ k, k ∈ ["name"; "description"; "category"] →
        ∃ v, b !! k = Some v ∧ truthy v = true) →
  (status (router_post b w).1 = 400 ↔ Js.lnot (b !! "price") = true)
  ∧ (Js.lnot (b !! "price") = false →
     status (router_post b w).1 = 201 ∨ status (router_post b w).1 = 500).
Proof.
  intros T.
  assert (G : guard b = Js.lnot (b !! "price")).
  { assert (N : ∀ k, k ∈ ["name"; "description"; "category"] →
                     Js.lnot (b !! k) = false).
    { intros k Hk. apply not_false_iff. auto. }
    rewrite (N "name"), (N "description"), (N "category") by set_solver.
    simpl. by rewrite !orb_false_r. }
  assert (S : Js.lnot (b !! "price") = false →
              status (router_post b w).1 = 201 ∨ status (router_post b w).1 = 500).
  { intros P. unfold Backend.router_post, try_catch, bind. rewrite G, P.
    destruct (head_true_dec w) as [H|H].
    - rewrite (pool_query_fault _ _ H). by right.
    - rewrite (pool_query_ok _ _ H). cbn [fst snd].
      match goal with |- context [pool_query ?q ?w'] =>
        destruct (head_true_dec w') as [H'|H'];
        [rewrite (pool_query_fault q w' H') | rewrite (pool_query_ok q w' H')]
      end; [by right | by left]. }
  split; [|exact S]. destruct (Js.lnot (b !! "price")) eqn:P.
  - rewrite router_post_rejects by (rewrite P; exact G). done.
  - split; [|done]. intros E. destruct (S eq_refl) as [E'|E']; congruence.
Qed.

(** *** Deletion *)

Lemma filter_matches_nil (k : list N) (t : list row) :
  filter (λ r, text_matches k (id r) = true) t = []
  ↔ Forall (λ r, text_matches k (id r) = false) t.
Proof.
  induction t as [|r t IH].
  - split; [constructor | done].
  - destruct (text_matches k (id r)) eqn:E.
    + rewrite filter_cons_True by done. split; [done|].
      intros H. inversion H; subst. congruence.
    + rewrite filter_cons_False by congruence. rewrite IH.
      split; [by constructor | by inversion 1].
Qed.

Lemma filter_others_all (k : list N) (t : list row) :
  Forall (λ r, text_matches k (id r) = false) t →
  filter (λ r, text_matches k (id r) = false) t = t.
Proof.
  induction 1 as [|r t Hr _ IH]; [done|].
  rewrite filter_cons_True by done. by rewrite IH.
Qed.

Lemma affected_zero_iff (k : list N) (t : list row) :
  length (filter (λ r, text_matches k (id r) = true) t) = O
  ↔ Forall (λ r, text_matches k (id r) = false) t.
Proof. rewrite <- filter_matches_nil. apply length_zero_iff_nil. Qed.

Lemma affected_pos (k : list N) (t : list row) :
  Exists (λ r, text_matches k (id r) = true) t →
  length (filter (λ r, text_matches k (id r) = true) t) ≠ O.
Proof.
  intros E H. apply affected_zero_iff in H.
  apply Exists_exists in E as (r & Hr & E).
  rewrite Forall_forall in H.
  specialize (H r Hr). simpl in H. congruence.
Qed.

(** C6. When its statement does not fault, a deletion for which no row
    matches the identifier is answered 404 and leaves the table as it was;
    a deletion for which some row matches is answered with the message
    "Product deleted", removes the matching rows, and a list operation
    that follows (without fault) returns exactly the other rows, none of
    which matches the identifier. *)
Theorem delete_404_or_gone (k : list N) (w : world) :
  quiet 1 w →
  (Forall (λ r, text_matches k (id r) = false) (table w) →
     (router_delete k w).1 = mkResponse 404 (Message "Product not found")
     ∧ table (router_delete k w).2 = table w)
  ∧ (Exists (λ r, text_matches k (id r) = true) (table w) →
     (router_delete k w).1 = mkResponse 200 (Message "Product deleted")
     ∧ (quiet 1 (router_delete k w).2 →
        ∃ rows,
          (router_get (router_delete k w).2).1 = mkResponse 200 (Rows rows)
          ∧ rows ≡ₚ filter (λ r, text_matches k (id r) = false) (table w)
          ∧ Forall (λ r, text_matches k (id r) = false) rows)).
Proof.
  intros Q. apply quiet_head in Q.
  unfold Backend.router_delete, try_catch, bind.
  rewrite (pool_query_ok _ _ Q). cbn [fst snd Backend.execute affectedRows].
  split.
  - intros H. rewrite bool_decide_eq_true_2 by by apply affected_zero_iff.
    simpl. split; [done|]. by apply filter_others_all.
  - intros H. rewrite bool_decide_eq_false_2 by by apply affected_pos.
    cbn [ret fst snd]. split; [done|]. intros Q'.
    rewrite router_get_ok by (eapply quiet_head, Q'). eexists.
    split; [reflexivity|]. cbn [table].
    split; [apply order_by_id_desc_perm|].
    rewrite Forall_forall. intros r Hr. rewrite order_by_id_desc_perm in Hr.
    apply list_elem_of_filter in Hr. tauto.
Qed.

(** *** Faults *)

Lemma issued_one (w : world) t n o x :
  issued w (mkWorld t n o (trace w ++ [x])) = [x].
Proof. unfold issued. simpl. by rewrite drop_app_length. Qed.

Lemma issued_two (w : world) t n o x y :
  issued w (mkWorld t n o ((trace w ++ [x]) ++ [y])) = [x; y].
Proof. unfold issued. simpl. by rewrite <- app_assoc, drop_app_length. Qed.

Lemma issued_none (w : world) : issued w w = [].
Proof. unfold issued. by rewrite drop_all. Qed.

(** Case analysis on the statement about to be sent. *)
Ltac query_cases :=
  match goal with
  | |- context [Backend.pool_query ?tm ?q ?w'] =>
      let H := fresh "H" in
      destruct (head_true_dec w') as [H|H];
      [rewrite (pool_query_fault q w' H) | rewrite (pool_query_ok q w' H)];
      cbn [fst snd Backend.execute affectedRows insertId rows_of ret
           table next_id oracle trace]
  end.

Ltac found_fault :=
  eexists; repeat first [apply list_elem_of_here | apply list_elem_of_further].

Ltac no_fault H :=
  repeat (apply elem_of_cons in H as [[=]|H]); by apply elem_of_nil in H.

(** C7. Whatever the operation, the answer is 500 exactly when one of the
    statements it sent faulted, and the body of such an answer is a
    message: a fault never surfaces with another status. *)
Theorem fault_gives_500 (op : operation) (w : world) :
  (∃ q, (q, true) ∈ issued w (handle text_matches op w).2)
  ↔ status (handle text_matches op w).1 = 500
    ∧ ∃ m, body (handle text_matches op w).1 = Message m.
Proof.
  destruct op as [|k|b|k b|k]; simpl;
    unfold Backend.router_get, Backend.router_get_id, Backend.router_post,
      Backend.router_put, Backend.router_delete, try_catch, bind.
  - query_cases.
    + split; [intros _; split; [done | by eexists]|].
      intros _. rewrite issued_one. found_fault.
    + rewrite issued_one. split; [|by intros [? _]].
      intros (q & Hq). no_fault Hq.
  - query_cases.
    + rewrite issued_one. split; [intros _; split; [done | by eexists]|].
      intros _. found_fault.
    + case_bool_decide; cbn [ret fst snd]; rewrite issued_one;
        (split; [|by intros [? _]]); intros (q & Hq); no_fault Hq.
  - destruct (_ || _).
    + cbn [ret fst snd]. rewrite issued_none.
      split; [|by intros [? _]]. intros (q & Hq). no_fault Hq.
    + query_cases.
      * rewrite issued_one. split; [intros _; split; [done | by eexists]|].
        intros _. found_fault.
      * query_cases.
        -- rewrite issued_two. split; [intros _; split; [done | by eexists]|].
           intros _. found_fault.
        -- rewrite issued_two. split; [|by intros [? _]].
           intros (q & Hq). no_fault Hq.
  - query_cases.
    + rewrite issued_one. split; [intros _; split; [done | by eexists]|].
      intros _. found_fault.
    + case_bool_decide; cbn [ret fst snd].
      * rewrite issued_one. split; [|by intros [? _]].
        intros (q & Hq). no_fault Hq.
      * query_cases.
        -- rewrite issued_two. split; [intros _; split; [done | by eexists]|].
           intros _. found_fault.
        -- rewrite issued_two. split; [|by intros [? _]].
           intros (q & Hq). no_fault Hq.
  - query_cases.
    + rewrite issued_one. split; [intros _; split; [done | by eexists]|].
      intros _. found_fault.
    + case_bool_decide; cbn [ret fst snd]; rewrite issued_one;
        (split; [|by intros [? _]]); intros (q & Hq); no_fault Hq.
Qed.

(** *** Replacement *)

Lemma head_filter_fmap (k : list N) (upd : row → row) (t : list row) :
  (∀ r, id (upd r) = id r) →
  Exists (λ r, text_matches k (id r) = true) t →
  ∃ r0, r0 ∈ t ∧ text_matches k (id r0) = true
        ∧ head (filter (λ r, text_matches k (id r) = true) (upd <$> t))
          = Some (upd r0).
Proof.
  intros Hid. induction t as [|r t IH]; [by inversion 1|].
  intros E. rewrite fmap_cons. destruct (text_matches k (id r)) eqn:M.
  - exists r. rewrite filter_cons_True by by rewrite Hid.
    split; [by left|]. done.
  - rewrite filter_cons_False by (rewrite Hid; congruence).
    inversion E as [? ? E'|? ? E']; subst; [congruence|].
    destruct (IH E') as (r0 & ? & ? & ?). exists r0.
    split; [by right|]. done.
Qed.

(** C9. A replacement is never answered 400, whatever its body.  When
    some row matches the identifier and neither of its two statements
    faults, every matching row takes all five columns from the body (null
    where the body has no value, the image included) and keeps its
    identifier, the other rows are untouched, and the answer is 200 with
    the first matching row as read back after the update. *)
Theorem update_no_validation (k : list N) (b : gmap string jsval) (w : world) :
  status (router_put k b w).1 ≠ 400
  ∧ (Exists (λ r, text_matches k (id r) = true) (table w) → quiet 2 w →
     ∃ r, (router_put k b w).1 = mkResponse 200 (Row (Some r))
          ∧ text_matches k (id r) = true
          ∧ row_from_body r b
          ∧ head (filter (λ r, text_matches k (id r) = true)
                         (table (router_put k b w).2)) = Some r
          ∧ table (router_put k b w).2 =
              (λ r0, if text_matches k (id r0)
                     then mkRow (id r0) (default VNull (b !! "name"))
                                (default VNull (b !! "price"))
                                (default VNull (b !! "description"))
                                (default VNull (b !! "category"))
                                (nullish (b !! "image") VNull)
                     else r0) <$> table w
          ∧ next_id (router_put k b w).2 = next_id w).
Proof.
  split.
  - unfold Backend.router_put, try_catch, bind. query_cases; [done|].
    case_bool_decide; cbn [ret fst snd]; [done|]. query_cases; done.
  - intros E Q. unfold Backend.router_put, try_catch, bind.
    rewrite (pool_query_ok _ _ (quiet_head _ _ Q)).
    cbn [fst snd Backend.execute affectedRows Backend.matches].
    rewrite bool_decide_eq_false_2 by by apply affected_pos.
    rewrite pool_query_ok by (eapply quiet_head, quiet_tail, Q).
    cbn [fst snd Backend.execute rows_of ret table next_id Backend.matches
         from_option id].
    match goal with |- context [fmap ?f (table w)] => set (upd := f) end.
    destruct (head_filter_fmap k upd (table w)) as (r0 & Hr0 & M & Hh); [|done|].
    { intros r. unfold upd. by destruct (text_matches k (id r)). }
    exists (upd r0). rewrite Hh. split; [done|].
    unfold upd at 1 2. rewrite M. done.
Qed.

(** *** One record *)

Lemma router_get_id_ok (k : list N) (w : world) :
  head (oracle w) ≠ Some true →
  router_get_id k w =
    ((if bool_decide (length (filter (λ r, text_matches k (id r) = true) (table w)) = O)
      then mkResponse 404 (Message "Product not found")
      else mkResponse 200
             (Row (head (filter (λ r, text_matches k (id r) = true) (table w))))),
     mkWorld (table w) (next_id w) (tail (oracle w))
             (trace w ++ [(SelectById (Text k), false)])).
Proof.
  intros Q. unfold Backend.router_get_id, try_catch, bind.
  rewrite (pool_query_ok _ _ Q).
  cbn [fst snd Backend.execute rows_of Backend.matches]. by case_bool_decide.
Qed.

Lemma head_filter_Exists (k : list N) (t : list row) :
  Exists (λ r, text_matches k (id r) = true) t →
  ∃ r, head (filter (λ r, text_matches k (id r) = true) t) = Some r
       ∧ r ∈ t ∧ text_matches k (id r) = true.
Proof.
  intros E. destruct (filter _ t) as [|r l] eqn:F.
  - apply filter_matches_nil in F. apply affected_pos in E.
    apply affected_zero_iff in F. done.
  - exists r. split; [done|].
    assert (H : r ∈ filter (λ r, text_matches k (id r) = true) t)
      by (rewrite F; by left).
    apply list_elem_of_filter in H. tauto.
Qed.

(** X8. When its statement does not fault, the fetch of one record is
    answered 404 with a message if no row matches the identifier, and
    otherwise 200 with the first row of the table that matches. *)
Theorem get_404_or_row (k : list N) (w : world) :
  quiet 1 w →
  (Forall (λ r, text_matches k (id r) = false) (table w) →
     (router_get_id k w).1 = mkResponse 404 (Message "Product not found"))
  ∧ (Exists (λ r, text_matches k (id r) = true) (table w) →
     ∃ r, (router_get_id k w).1 = mkResponse 200 (Row (Some r))
          ∧ head (filter (λ r, text_matches k (id r) = true) (table w)) = Some r
          ∧ r ∈ table w ∧ text_matches k (id r) = true).
Proof.
  intros Q. rewrite (router_get_id_ok k w (quiet_head _ _ Q)). cbn [fst]. split.
  - intros F. by rewrite bool_decide_eq_true_2 by by apply affected_zero_iff.
  - intros E. rewrite bool_decide_eq_false_2 by by apply affected_pos.
    destruct (head_filter_Exists k _ E) as (r & H1 & H2 & H3).
    exists r. by rewrite H1.
Qed.

(** *** What an operation leaves alone *)

Lemma fmap_update_none (k : list N) (f : row → row) (t : list row) :
  Forall (λ r, text_matches k (id r) = false) t →
  (λ r, if text_matches k (id r) then f r else r) <$> t = t.
Proof.
  induction 1 as [|r t Hr _ IH]; [done|].
  rewrite fmap_cons, IH. simpl in Hr. by rewrite Hr.
Qed.

(** X9. The list and the fetch of one record never change the table or
    the next identifier, fault or not; neither does any operation that is
    answered 400 or 404. *)
Theorem store_unchanged (op : operation) (w : world) :
  match op with
  | List | Get _ => True
  | _ => status (handle text_matches op w).1 = 400
         ∨ status (handle text_matches op w).1 = 404
  end →
  table (handle text_matches op w).2 = table w
  ∧ next_id (handle text_matches op w).2 = next_id w.
Proof.
  destruct op as [|k|b|k b|k]; simpl;
    unfold Backend.router_get, Backend.router_get_id, Backend.router_post,
      Backend.router_put, Backend.router_delete, try_catch, bind.
  - intros _. query_cases; done.
  - intros _. query_cases; [done|]. by case_bool_decide.
  - destruct (_ || _); [done|]. query_cases; [intros [|]; done|].
    query_cases; intros [|]; done.
  - query_cases; [intros [|]; done|].
    cbn [Backend.matches]. case_bool_decide as A; cbn [ret fst snd].
    + intros _. simpl. split; [|done].
      apply fmap_update_none. by apply affected_zero_iff.
    + query_cases; intros [|]; done.
  - query_cases; [intros [|]; done|].
    cbn [Backend.matches]. case_bool_decide as A; cbn [ret fst snd].
    + intros _. simpl. split; [|done].
      apply filter_others_all. by apply affected_zero_iff.
    + intros [|]; done.
Qed.

(** *** Answers *)

(** X10. The list is answered 200 or 500; the fetch of one record, the
    replacement and the deletion 200, 404 or 500; the creation 201, 400 or
    500.  Every answer with a status from 400 up carries a message. *)
Theorem status_codes (op : operation) (w : world) :
  let st := status (handle text_matches op w).1 in
  match op with
  | List => st = 200 ∨ st = 500
  | Create _ => st = 201 ∨ st = 400 ∨ st = 500
  | Get _ | Replace _ _ | Remove _ => st = 200 ∨ st = 404 ∨ st = 500
  end
  ∧ (400 ≤ st → ∃ m, body (handle text_matches op w).1 = Message m).
Proof.
  destruct op as [|k|b|k b|k]; simpl;
    unfold Backend.router_get, Backend.router_get_id, Backend.router_post,
      Backend.router_put, Backend.router_delete, try_catch, bind.
  - query_cases; simpl; (split; [tauto|]); [by eexists | lia].
  - query_cases; [simpl; split; [tauto | by eexists]|].
    case_bool_decide; simpl; (split; [tauto|]); [by eexists | lia].
  - destruct (_ || _); [simpl; split; [tauto | by eexists]|].
    query_cases; [simpl; split; [tauto | by eexists]|].
    query_cases; simpl; (split; [tauto|]); [by eexists | lia].
  - query_cases; [simpl; split; [tauto | by eexists]|].
    case_bool_decide; cbn [ret fst snd]; [simpl; split; [tauto | by eexists]|].
    query_cases; simpl; (split; [tauto|]); [by eexists | lia].
  - query_cases; [simpl; split; [tauto | by eexists]|].
    case_bool_decide; simpl; (split; [tauto|]); [by eexists | lia].
Qed.

(** X11. An operation sends at most two statements, and none once a
    statement has faulted: a fault is always the last statement sent.  A
    creation answered 400 has sent none. *)
Theorem no_statement_after_fault (op : operation) (w : world) :
  (length (issued w (handle text_matches op w).2) ≤ 2)%nat
  ∧ (∀ i q, issued w (handle text_matches op w).2 !! i = Some (q, true) →
            S i = length (issued w (handle text_matches op w).2))
  ∧ (status (handle text_matches op w).1 = 400 →
     issued w (handle text_matches op w).2 = []).
Proof.
  destruct op as [|k|b|k b|k]; simpl;
    unfold Backend.router_get, Backend.router_get_id, Backend.router_post,
      Backend.router_put, Backend.router_delete, try_catch, bind.
  all: repeat first
    [ progress cbn [ret fst snd]
    | match goal with |- context [if ?c then _ else _] => destruct c end
    | query_cases ].
  all: rewrite ?issued_one, ?issued_two, ?issued_none; simpl.
  all: split; [lia|]; split; [|done].
  all: intros [|[|i]] q; simpl; intros [=]; done.
Qed.

(** *** A fault after a write *)

(** X12. Nothing is undone when the second statement faults: a creation
    whose insertion went through and whose read-back faulted is answered
    500 although the row is in the table, and a replacement whose update
    went through and whose read-back faulted is answered 500 although the
    matching rows have been overwritten. *)
Theorem write_survives_later_fault :
  (∀ b w o, all_truthy b → oracle w = false :: true :: o →
     status (router_post b w).1 = 500
     ∧ ∃ r, table (router_post b w).2 = table w ++ [r]
            ∧ id r = next_id w ∧ row_from_body r b)
  ∧ (∀ k b w o, Exists (λ r, text_matches k (id r) = true) (table w) →
     oracle w = false :: true :: o →
     status (router_put k b w).1 = 500
     ∧ table (router_put k b w).2 =
         (λ r0, if text_matches k (id r0)
                then mkRow (id r0) (default VNull (b !! "name"))
                           (default VNull (b !! "price"))
                           (default VNull (b !! "description"))
                           (default VNull (b !! "category"))
                           (nullish (b !! "image") VNull)
                else r0) <$> table w).
Proof.
  split.
  - intros b w o T O. apply guard_false_iff in T.
    unfold Backend.router_post, try_catch, bind, Backend.pool_query.
    rewrite T, O. simpl. split; [done|]. eexists. split; [reflexivity|].
    by repeat split.
  - intros k b w o E O.
    unfold Backend.router_put, try_catch, bind, Backend.pool_query.
    rewrite O. cbn [fst snd Backend.execute affectedRows Backend.matches].
    rewrite bool_decide_eq_false_2 by by apply affected_pos. done.
Qed.

(** *** One operation after another *)

Lemma quiet_pred (n : nat) (w : world) : quiet (S n) w → quiet n w.
Proof.
  unfold quiet. intros H. apply (Forall_take _ n) in H.
  rewrite take_take in H. by replace (n `min` S n)%nat with n in H by lia.
Qed.

Lemma quiet_third (w : world) (t : list row) (k : Z) tr :
  quiet 3 w →
  head (oracle (mkWorld t k (tail (tail (oracle w))) tr)) ≠ Some true.
Proof.
  unfold quiet. simpl. destruct (oracle w) as [|a [|b [|c o]]]; simpl; try done.
  intros H. inversion H as [|? ? _ H1]; subst.
  inversion H1 as [|? ? _ H2]; subst. inversion H2; subst. done.
Qed.

(** X13. A record that has just been created can be fetched: when the
    text names the new identifier and no older row, the fetch that follows
    a creation is answered 200 with the very row the creation returned. *)
Theorem created_can_be_fetched (k : list N) (b : gmap string jsval) (w : world) :
  all_truthy b → fresh_ids w → quiet 3 w →
  text_matches k (next_id w) = true →
  Forall (λ r, text_matches k (id r) = false) (table w) →
  ∃ r, (router_post b w).1 = mkResponse 201 (Row (Some r))
       ∧ (router_get_id k (router_post b w).2).1 = mkResponse 200 (Row (Some r)).
Proof.
  intros T F Q M O. apply guard_false_iff in T.
  rewrite (router_post_inserts b w T F (quiet_pred _ _ Q)). eexists.
  split; [reflexivity|]. cbn [snd].
  rewrite router_get_id_ok by (by apply quiet_third).
  cbn [fst table]. rewrite filter_app.
  rewrite (proj2 (filter_matches_nil k (table w)) O).
  rewrite filter_cons_True by done. done.
Qed.

Lemma order_by_id_desc_snoc (t : list row) (r : row) :
  Forall (λ x, id x < id r) t →
  order_by_id_desc (t ++ [r]) = r :: order_by_id_desc t.
Proof.
  induction 1 as [|a t Ha _ IH]; [done|]. simpl. rewrite IH. simpl.
  destruct (id r <=? id a) eqn:E; [lia|done].
Qed.

(** X14. A record that has just been created heads the list: the list
    that follows a creation is answered with the new row first and the
    rows held before after it. *)
Theorem created_is_listed_first (b : gmap string jsval) (w : world) :
  all_truthy b → fresh_ids w → quiet 3 w →
  ∃ r rest,
    (router_post b w).1 = mkResponse 201 (Row (Some r))
    ∧ (router_get (router_post b w).2).1 = mkResponse 200 (Rows (r :: rest))
    ∧ rest ≡ₚ table w
    ∧ Sorted id_desc rest.
Proof.
  intros T F Q. apply guard_false_iff in T.
  rewrite (router_post_inserts b w T F (quiet_pred _ _ Q)).
  eexists. exists (order_by_id_desc (table w)). split; [reflexivity|]. cbn [snd].
  rewrite router_get_ok by (by apply quiet_third).
  cbn [fst table]. rewrite order_by_id_desc_snoc by exact F.
  split; [done|]. split; [apply order_by_id_desc_perm|].
  apply order_by_id_desc_sorted.
Qed.

Lemma router_delete_ok (k : list N) (w : world) :
  head (oracle w) ≠ Some true →
  (router_delete k w).2 =
    mkWorld (filter (λ r, text_matches k (id r) = false) (table w)) (next_id w)
            (tail (oracle w)) (trace w ++ [(Delete (Text k), false)]).
Proof.
  intros Q. unfold Backend.router_delete, try_catch, bind.
  rewrite (pool_query_ok _ _ Q).
  cbn [fst snd Backend.execute affectedRows Backend.matches]. by case_bool_decide.
Qed.

Lemma filter_others_none (k : list N) (t : list row) :
  Forall (λ r, text_matches k (id r) = false)
         (filter (λ r, text_matches k (id r) = false) t).
Proof.
  rewrite Forall_forall. intros r Hr. apply list_elem_of_filter in Hr. tauto.
Qed.

(** X15. After a deletion, fault apart, the identifier is gone whether or
    not it was there: a fetch of it is answered 404, and so is a second
    deletion, which changes nothing. *)
Theorem deleted_is_gone (k : list N) (w : world) :
  quiet 2 w →
  (router_get_id k (router_delete k w).2).1
  = mkResponse 404 (Message "Product not found")
  ∧ (router_delete k (router_delete k w).2).1
    = mkResponse 404 (Message "Product not found")
  ∧ table (router_delete k (router_delete k w).2).2 = table (router_delete k w).2.
Proof.
  intros Q. pose proof (quiet_head _ _ Q) as Q1.
  assert (Q2 : head (oracle (router_delete k w).2) ≠ Some true).
  { rewrite (router_delete_ok k w Q1). eapply quiet_head, quiet_tail, Q. }
  pose proof (filter_others_none k (table w)) as N.
  split; [|split].
  - rewrite (router_get_id_ok k _ Q2). rewrite (router_delete_ok k w Q1).
    cbn [fst table]. by rewrite bool_decide_eq_true_2 by by apply affected_zero_iff.
  - unfold Backend.router_delete at 1, try_catch, bind.
    rewrite (pool_query_ok _ _ Q2). rewrite (router_delete_ok k w Q1).
    cbn [fst snd table next_id Backend.execute affectedRows Backend.matches].
    by rewrite bool_decide_eq_true_2 by by apply affected_zero_iff.
  - rewrite (router_delete_ok k _ Q2). rewrite (router_delete_ok k w Q1).
    cbn [table]. by apply filter_others_all.
Qed.

(** The rows after [UPDATE ... WHERE id = ?] bound to a body. *)
Local Abbreviation overwrite k b :=
  (λ r0 : row,
     if text_matches k (id r0)
     then mkRow (id r0) (default VNull (b !! "name"))
                (default VNull (b !! "price"))
                (default VNull (b !! "description"))
                (default VNull (b !! "category"))
                (nullish (b !! "image") VNull)
     else r0).

Lemma overwrite_id (k : list N) (b : gmap string jsval) (r : row) :
  id (overwrite k b r) = id r.
Proof. simpl. by destruct (text_matches k (id r)). Qed.

Lemma overwrite_idem (k : list N) (b : gmap string jsval) (t : list row) :
  overwrite k b <$> (overwrite k b <$> t) = overwrite k b <$> t.
Proof.
  rewrite <- list_fmap_compose. apply list_fmap_ext. intros _ r _. simpl.
  destruct (text_matches k (id r)) eqn:E; simpl; by rewrite E.
Qed.

Lemma router_put_store (k : list N) (b : gmap string jsval) (w : world) :
  (head (oracle w) = Some true →
     table (router_put k b w).2 = table w
     ∧ next_id (router_put k b w).2 = next_id w)
  ∧ (head (oracle w) ≠ Some true →
     table (router_put k b w).2 = overwrite k b <$> table w
     ∧ next_id (router_put k b w).2 = next_id w).
Proof.
  unfold Backend.router_put, try_catch, bind. split; intros H.
  - by rewrite (pool_query_fault _ _ H).
  - rewrite (pool_query_ok _ _ H).
    cbn [fst snd Backend.execute affectedRows Backend.matches].
    case_bool_decide; [done|]. query_cases; done.
Qed.

Lemma router_put_ok (k : list N) (b : gmap string jsval) (w : world) :
  Exists (λ r, text_matches k (id r) = true) (table w) → quiet 2 w →
  router_put k b w =
    (mkResponse 200
       (Row (head (filter (λ r, text_matches k (id r) = true)
                          (overwrite k b <$> table w)))),
     mkWorld (overwrite k b <$> table w) (next_id w) (tail (tail (oracle w)))
             (trace w ++ [(Update (b !! "name") (b !! "price") (b !! "description")
                                  (b !! "category") (Some (nullish (b !! "image") VNull))
                                  (Text k), false);
                          (SelectById (Text k), false)])).
Proof.
  intros E Q. unfold Backend.router_put, try_catch, bind.
  rewrite (pool_query_ok _ _ (quiet_head _ _ Q)).
  cbn [fst snd Backend.execute affectedRows Backend.matches].
  rewrite bool_decide_eq_false_2 by by apply affected_pos.
  rewrite pool_query_ok by (eapply quiet_head, quiet_tail, Q).
  cbn [fst snd Backend.execute rows_of ret table next_id oracle trace
       Backend.matches from_option id].
  by rewrite <- app_assoc.
Qed.

(** X16. A record that has just been replaced reads back the same: the
    fetch that follows a replacement of an existing record is answered as
    the replacement was, 200 with the row as overwritten. *)
Theorem replaced_can_be_fetched (k : list N) (b : gmap string jsval) (w : world) :
  Exists (λ r, text_matches k (id r) = true) (table w) → quiet 3 w →
  status (router_put k b w).1 = 200
  ∧ (router_get_id k (router_put k b w).2).1 = (router_put k b w).1.
Proof.
  intros E Q. rewrite (router_put_ok k b w E (quiet_pred _ _ Q)).
  split; [done|]. cbn [fst snd].
  rewrite router_get_id_ok by (by apply quiet_third). cbn [fst table].
  destruct (head_filter_fmap k (overwrite k b) (table w)) as (r0 & _ & _ & H);
    [apply overwrite_id | exact E |].
  rewrite bool_decide_eq_false_2; [done|].
  intros L. apply length_zero_iff_nil in L. by rewrite L in H.
Qed.

(** X17. A replacement never adds or removes a row and never changes an
    identifier, fault or not, and an identifier that matches no row gets
    none created.  Once the update has gone through, sending the same
    replacement again leaves the table as it is. *)
Theorem replace_keeps_rows (k : list N) (b : gmap string jsval) (w : world) :
  id <$> table (router_put k b w).2 = id <$> table w
  ∧ next_id (router_put k b w).2 = next_id w
  ∧ (Forall (λ r, text_matches k (id r) = false) (table w) →
     table (router_put k b w).2 = table w)
  ∧ (quiet 1 w →
     table (router_put k b (router_put k b w).2).2 = table (router_put k b w).2).
Proof.
  destruct (router_put_store k b w) as [A B].
  assert (I : id <$> (overwrite k b <$> table w) = id <$> table w).
  { rewrite <- list_fmap_compose. apply list_fmap_ext. intros _ r _.
    apply overwrite_id. }
  destruct (head_true_dec w) as [H|H].
  - destruct (A H) as [-> ->]. repeat split; try done.
    intros Q. by apply quiet_head in Q.
  - destruct (B H) as [T ->]. rewrite T. split; [exact I|]. split; [done|].
    split; [apply fmap_update_none|]. intros _.
    destruct (router_put_store k b (router_put k b w).2) as [A' B'].
    destruct (head_true_dec (router_put k b w).2) as [H'|H'].
    + destruct (A' H') as [-> _]. exact T.
    + destruct (B' H') as [-> _]. rewrite T. apply overwrite_idem.
Qed.

(** *** Identifiers stay fresh *)

Lemma execute_fresh_ids (q : statement) (t : list row) (n : Z) :
  Forall (λ r, id r < n) t →
  Forall (λ r, id r < (execute q t n).2) (execute q t n).1.2.
Proof.
  intros F. destruct q as [|k|? ? ? ? ?|? ? ? ? ? k|k]; simpl; try done.
  - apply Forall_app. split.
    + eapply Forall_impl; [exact F|]. simpl. lia.
    + repeat constructor. simpl. lia.
  - rewrite Forall_fmap. eapply Forall_impl; [exact F|].
    intros r Hr. simpl. by destruct (matches k (id r)).
  - rewrite Forall_forall in F |- *. intros r Hr.
    apply list_elem_of_filter in Hr as [_ Hr]. by apply F.
Qed.

Lemma pool_query_fresh_ids (q : statement) (w : world) :
  fresh_ids w → fresh_ids (pool_query q w).2.
Proof.
  intros F. destruct (head_true_dec w) as [H|H].
  - by rewrite (pool_query_fault _ _ H).
  - rewrite (pool_query_ok _ _ H). by apply execute_fresh_ids.
Qed.

(** Every operation keeps the identifiers in use below the next one. *)
Lemma handle_fresh_ids (op : operation) (w : world) :
  fresh_ids w → fresh_ids (handle text_matches op w).2.
Proof.
  intros F.
  pose proof pool_query_fresh_ids as P.
  destruct op as [|k|b|k b|k]; simpl;
    unfold Backend.router_get, Backend.router_get_id, Backend.router_post,
      Backend.router_put, Backend.router_delete, try_catch, bind.
  - specialize (P SelectAll w F). by destruct (pool_query _ w) as [[]].
  - specialize (P (SelectById (Text k)) w F).
    destruct (pool_query _ w) as [[r|] w1]; [|done]. by case_bool_decide.
  - destruct (_ || _); [done|].
    match goal with |- context [pool_query ?q w] => specialize (P q w F) as P1 end.
    destruct (pool_query _ w) as [[r|] w1]; [|done]. simpl in P1.
    match goal with |- context [pool_query ?q w1] => specialize (P q w1 P1) as P2 end.
    by destruct (pool_query _ w1) as [[]].
  - match goal with |- context [pool_query ?q w] => specialize (P q w F) as P1 end.
    destruct (pool_query _ w) as [[r|] w1]; [|done]. simpl in P1.
    case_bool_decide; [done|].
    match goal with |- context [pool_query ?q w1] => specialize (P q w1 P1) as P2 end.
    by destruct (pool_query _ w1) as [[]].
  - match goal with |- context [pool_query ?q w] => specialize (P q w F) as P1 end.
    destruct (pool_query _ w) as [[r|] w1]; [|done]. by case_bool_decide.
Qed.

Lemma execute_unique_ids (q : statement) (t : list row) (n : Z) :
  Forall (λ r, id r < n) t → NoDup (id <$> t) →
  NoDup (id <$> (execute q t n).1.2).
Proof.
  intros F U. destruct q as [|k|? ? ? ? ?|? ? ? ? ? k|k]; simpl; try done.
  - rewrite fmap_app. apply NoDup_app. split; [exact U|]. split.
    + intros x Hx. apply list_elem_of_fmap in Hx as (r & -> & Hr).
      rewrite Forall_forall in F. specialize (F r Hr). simpl in F.
      intros Hn. apply elem_of_cons in Hn as [Hn|Hn]; [simpl in Hn; lia|].
      by apply elem_of_nil in Hn.
    + apply NoDup_singleton.
  - rewrite <- list_fmap_compose.
    erewrite list_fmap_ext; [exact U|]. intros _ r _. simpl.
    by destruct (matches k (id r)).
  - eapply sublist_NoDup; [exact U|]. apply fmap_sublist, sublist_filter.
Qed.

Lemma pool_query_ids (q : statement) (w : world) :
  fresh_ids w ∧ unique_ids w →
  fresh_ids (pool_query q w).2 ∧ unique_ids (pool_query q w).2.
Proof.
  intros [F U]. split; [by apply pool_query_fresh_ids|].
  destruct (head_true_dec w) as [H|H].
  - by rewrite (pool_query_fault _ _ H).
  - rewrite (pool_query_ok _ _ H). by apply execute_unique_ids.
Qed.

(** X18. Whatever the operation and whether or not it faults, the
    identifiers of the table stay distinct and below the next identifier
    to be assigned: no operation reuses or rewrites one. *)
Theorem identifiers_stay_unique (op : operation) (w : world) :
  fresh_ids w → unique_ids w →
  fresh_ids (handle text_matches op w).2 ∧ unique_ids (handle text_matches op w).2.
Proof.
  intros F U. pose proof pool_query_ids as P.
  assert (I : fresh_ids w ∧ unique_ids w) by done. clear F U.
  destruct op as [|k|b|k b|k]; simpl;
    unfold Backend.router_get, Backend.router_get_id, Backend.router_post,
      Backend.router_put, Backend.router_delete, try_catch, bind.
  - specialize (P SelectAll w I). by destruct (pool_query _ w) as [[]].
  - specialize (P (SelectById (Text k)) w I).
    destruct (pool_query _ w) as [[r|] w1]; [|done]. by case_bool_decide.
  - destruct (_ || _); [done|].
    match goal with |- context [pool_query ?q w] => specialize (P q w I) as P1 end.
    destruct (pool_query _ w) as [[r|] w1]; [|done]. simpl in P1.
    match goal with |- context [pool_query ?q w1] => specialize (P q w1 P1) as P2 end.
    by destruct (pool_query _ w1) as [[]].
  - match goal with |- context [pool_query ?q w] => specialize (P q w I) as P1 end.
    destruct (pool_query _ w) as [[r|] w1]; [|done]. simpl in P1.
    case_bool_decide; [done|].
    match goal with |- context [pool_query ?q w1] => specialize (P q w1 P1) as P2 end.
    by destruct (pool_query _ w1) as [[]].
  - match goal with |- context [pool_query ?q w] => specialize (P q w I) as P1 end.
    destruct (pool_query _ w) as [[r|] w1]; [|done]. by case_bool_decide.
Qed.

End RouterProperties.

Lemma list_returns_all_desc_witness :
  Backend.quiet 1 Sample.shop
  ∧ ∃ rows,
      (Backend.router_get Sample.decimal_matches Sample.shop).1
      = Backend.mkResponse 200 (Backend.Rows rows)
      ∧ rows ≡ₚ [Sample.row1; Sample.row5; Sample.row2].
Proof.
  assert (Q : Backend.quiet 1 Sample.shop) by (vm_compute; constructor).
  split; [exact Q|].
  destruct (list_returns_all_desc Sample.decimal_matches Sample.shop Q)
    as (rows & H1 & H2 & _).
  exists rows. split; [exact H1 | exact H2].
Defined.

Example list_shop :
  (Backend.router_get Sample.decimal_matches Sample.shop).1
  = Backend.mkResponse 200 (Backend.Rows [Sample.row5; Sample.row2; Sample.row1]).
Proof. reflexivity. Qed.

(** ** The router on the sample table *)

Lemma cap_all_truthy : Backend.all_truthy Sample.cap.
Proof.
  intros k Hk. unfold Backend.required in Hk.
  repeat (apply elem_of_cons in Hk as [->|Hk]; [eexists; split; reflexivity|]).
  by apply elem_of_nil in Hk.
Qed.

Lemma shop_fresh_ids : Backend.fresh_ids Sample.shop.
Proof. repeat constructor. Qed.

Lemma shop_quiet (n : nat) : Backend.quiet n Sample.shop.
Proof. unfold Backend.quiet. simpl. rewrite take_nil. constructor. Qed.

Lemma create_400_or_201_witness :
  (Backend.router_post Sample.decimal_matches Sample.cap_unpriced Sample.shop).1
  = Backend.mkResponse 400 (Backend.Message "Missing required fields")
  ∧ ∃ r,
      (Backend.router_post Sample.decimal_matches Sample.cap Sample.shop).1
      = Backend.mkResponse 201 (Backend.Row (Some r))
      ∧ Backend.id r = 6
      ∧ Backend.price r = VNum (Lit true 5 0)
      ∧ Backend.image r = VNull.
Proof.
  destruct (create_400_or_201 Sample.decimal_matches Sample.cap_unpriced Sample.shop)
    as (A & _).
  destruct (create_400_or_201 Sample.decimal_matches Sample.cap Sample.shop)
    as (_ & _ & C).
  split.
  - rewrite A; [done|]. exists "price". split; [|reflexivity].
    unfold Backend.required. set_solver.
  - destruct (C cap_all_truthy shop_fresh_ids (shop_quiet 2))
      as (r & H1 & H2 & _ & H3 & _ & _ & H4 & _).
    exists r. split; [exact H1|]. split; [exact H2|].
    split; [|exact H4].
    assert (E : Sample.cap !! "price" = Some (VNum (Lit true 5 0))) by reflexivity.
    rewrite E in H3. by injection H3.
Defined.

(** C1 as stated fails: a body in which all four required fields are
    present, the name being the empty text, is answered 400. *)
Lemma create_rejects_empty_name :
  Backend.all_present Sample.cap_unnamed
  ∧ (Backend.router_post Sample.decimal_matches Sample.cap_unnamed Sample.shop).1
    = Backend.mkResponse 400 (Backend.Message "Missing required fields").
Proof.
  split; [|reflexivity]. intros k Hk. unfold Backend.required in Hk.
  repeat (apply elem_of_cons in Hk as [->|Hk]; [eexists; reflexivity|]).
  by apply elem_of_nil in Hk.
Qed.

Lemma create_price_check_witness :
  Backend.status (Backend.router_post Sample.decimal_matches Sample.cap Sample.shop).1
  = 201.
Proof.
  assert (T : ∀ k, k ∈ ["name"; "description"; "category"] →
                   ∃ v, Sample.cap !! k = Some v ∧ truthy v = true).
  { intros k Hk.
    repeat (apply elem_of_cons in Hk as [->|Hk]; [eexists; split; reflexivity|]).
    by apply elem_of_nil in Hk. }
  destruct (create_price_check Sample.decimal_matches Sample.cap Sample.shop T)
    as [_ B].
  destruct (B eq_refl) as [E|E]; [exact E|]. vm_compute in E. discriminate.
Defined.

(** C2 as stated fails: a creation that supplies the price 0 along with
    the other required fields is rejected with the validation error. *)
Lemma create_rejects_zero_price :
  Sample.cap_free !! "price" = Some (VNum (Lit false 0 0))
  ∧ (∀ k, k ∈ ["name"; "description"; "category"] →
          ∃ v, Sample.cap_free !! k = Some v ∧ truthy v = true)
  ∧ (Backend.router_post Sample.decimal_matches Sample.cap_free Sample.shop).1
    = Backend.mkResponse 400 (Backend.Message "Missing required fields").
Proof.
  split; [reflexivity|]. split; [|reflexivity]. intros k Hk.
  repeat (apply elem_of_cons in Hk as [->|Hk]; [eexists; split; reflexivity|]).
  by apply elem_of_nil in Hk.
Qed.

Lemma delete_404_or_gone_witness :
  (Backend.router_delete Sample.decimal_matches (str "7") Sample.shop).1
  = Backend.mkResponse 404 (Backend.Message "Product not found")
  ∧ (Backend.router_delete Sample.decimal_matches (str "5") Sample.shop).1
    = Backend.mkResponse 200 (Backend.Message "Product deleted")
  ∧ ∃ rows,
      (Backend.router_get Sample.decimal_matches
         (Backend.router_delete Sample.decimal_matches (str "5") Sample.shop).2).1
      = Backend.mkResponse 200 (Backend.Rows rows)
      ∧ Forall (λ r, Sample.decimal_matches (str "5") (Backend.id r) = false) rows.
Proof.
  destruct (delete_404_or_gone Sample.decimal_matches (str "7") Sample.shop
              (shop_quiet 1)) as [A _].
  destruct (delete_404_or_gone Sample.decimal_matches (str "5") Sample.shop
              (shop_quiet 1)) as [_ B].
  split.
  - apply A. repeat constructor.
  - destruct B as [B1 B2].
    { apply Exists_cons_tl, Exists_cons_hd. reflexivity. }
    split; [exact B1|].
    destruct B2 as (rows & H1 & _ & H2).
    { unfold Backend.quiet. simpl. constructor. }
    exists rows. split; [exact H1 | exact H2].
Defined.

Lemma fault_gives_500_witness :
  Backend.status
    (Backend.handle Sample.decimal_matches (Backend.Remove (str "5")) Sample.shop_down).1
  = 500.
Proof.
  apply (proj1 (fault_gives_500 Sample.decimal_matches
                  (Backend.Remove (str "5")) Sample.shop_down)).
  exists (Backend.Delete (Backend.Text (str "5"))). vm_compute. left.
Defined.

Lemma update_no_validation_witness :
  ∃ r,
    (Backend.router_put Sample.decimal_matches (str "5") Sample.cap_unpriced
       Sample.shop).1
    = Backend.mkResponse 200 (Backend.Row (Some r))
    ∧ Backend.id r = 5
    ∧ Backend.name r = VStr (str "Cap")
    ∧ Backend.price r = VNull
    ∧ Backend.image r = VNull.
Proof.
  destruct (update_no_validation Sample.decimal_matches (str "5")
              Sample.cap_unpriced Sample.shop) as [_ B].
  destruct B as (r & H1 & _ & H2 & _).
  { apply Exists_cons_tl, Exists_cons_hd. reflexivity. }
  { apply shop_quiet. }
  exists r. split; [exact H1|].
  destruct H2 as (Hn & Hp & _ & _ & Hi).
  vm_compute in H1. injection H1 as H1. subst r. repeat split.
Defined.

(** ** Worked examples *)

Example Number_10 : Number (str "10") = Lit false 10 0.
Proof. reflexivity. Qed.
Example Number_1999 : Number (str " 19.99 ") = Lit false 1999 (-2).
Proof. reflexivity. Qed.
Example Number_abc : Number (str "abc") = NaN.
Proof. reflexivity. Qed.
Example Number_hex : Number (str "0x1F") = Lit false 31 0.
Proof. reflexivity. Qed.
Example Number_exp : Number (str "-.5E+3") = Lit true 5 2.
Proof. reflexivity. Qed.
Example Number_inf : Number (str "+Infinity") = Infinity false.
Proof. reflexivity. Qed.
Example Number_junk : Number (str "1e") = NaN /\ Number (str ".") = NaN /\ Number (str "1 2") = NaN.
Proof. repeat split; reflexivity. Qed.
Example Number_tiny : num_gt0 (Number (str "1e-400")) = false /\ num_gt0 (Number (str "5e-324")) = true.
Proof. split; vm_compute; reflexivity. Qed.

Example shirt_valid : Form.allValid Sample.shirt = true.
Proof. vm_compute. reflexivity. Qed.

Example shirt_space_image_invalid : Form.allValid Sample.shirt_space_image = false.
Proof. vm_compute. reflexivity. Qed.

Example shirt_payload :
  (Form.handleSubmit_begin (Form.setTitle (str "  Shirt ") Sample.shirt)).2
  = ProductPayload.mk (str "Shirt") (Lit false 10 0) (str "d")
                      (str "data:image/png;base64,AAAA") (str "men").
Proof. vm_compute. reflexivity. Qed.

Example get_missing :
  (Backend.router_get_id Sample.decimal_matches (str "7") Sample.shop).1
  = Backend.mkResponse 404 (Backend.Message "Product not found").
Proof. reflexivity. Qed.

Example get_row2 :
  (Backend.router_get_id Sample.decimal_matches (str "2") Sample.shop).1
  = Backend.mkResponse 200 (Backend.Row (Some Sample.row2)).
Proof. reflexivity. Qed.

(** ** The further properties on the sample data *)

Lemma image_choice_keeps_cells_witness :
  (Form.handleImageChange_begin (Some Sample.document) Sample.shirt).1
  = Form.setError (Some (str "Please choose a valid image file.")) Sample.shirt
  ∧ (Form.handleImageChange_begin (Some Sample.picture) Sample.shirt).2 = true.
Proof.
  destruct (image_choice_keeps_cells (Some Sample.document) Sample.shirt)
    as (_ & _ & _ & _ & A & _).
  destruct (image_choice_keeps_cells (Some Sample.picture) Sample.shirt)
    as (_ & _ & B & _).
  split; [by apply (A Sample.document)|].
  apply B. by exists Sample.picture.
Defined.

Lemma preview_is_payload_witness :
  Form.reachable (Form.mkPage Sample.shirt_in_flight 1 0)
  ∧ Form.previewSrc Sample.shirt_in_flight = Form.imageB64 Sample.shirt_in_flight
  ∧ Form.preview_shown Sample.shirt_in_flight = true.
Proof.
  assert (R : Form.reachable (Form.mkPage Sample.shirt_in_flight 1 0)).
  { exists Sample.shirt_events. vm_compute. reflexivity. }
  split; [exact R|]. destruct (preview_is_payload _ R) as [A B].
  split; [exact A|]. cbn [Form.form] in B. rewrite B. vm_compute. reflexivity.
Defined.

Lemma payload_well_formed_witness :
  Form.allValid Sample.shirt = true
  ∧ ProductPayload.title (Form.handleSubmit_begin Sample.shirt).2 ≠ []
  ∧ num_gt0 (ProductPayload.price (Form.handleSubmit_begin Sample.shirt).2) = true.
Proof.
  assert (V : Form.allValid Sample.shirt = true) by (vm_compute; reflexivity).
  split; [exact V|].
  destruct (payload_well_formed Sample.shirt V) as (A & _ & _ & _ & _ & _ & B & _).
  split; [exact A | exact B].
Defined.



Lemma stock_cell_of_created_witness :
  Viewer.stock_cell Sample.unrated = VStr (str "-").
Proof. apply (proj2 stock_cell_of_created). by left. Defined.

Lemma get_404_or_row_witness :
  (Backend.router_get_id Sample.decimal_matches (str "7") Sample.shop).1
  = Backend.mkResponse 404 (Backend.Message "Product not found")
  ∧ ∃ r, (Backend.router_get_id Sample.decimal_matches (str "5") Sample.shop).1
         = Backend.mkResponse 200 (Backend.Row (Some r))
         ∧ Sample.decimal_matches (str "5") (Backend.id r) = true.
Proof.
  destruct (get_404_or_row Sample.decimal_matches (str "7") Sample.shop
              (shop_quiet 1)) as [A _].
  destruct (get_404_or_row Sample.decimal_matches (str "5") Sample.shop
              (shop_quiet 1)) as [_ B].
  split; [apply A; repeat constructor|].
  destruct B as (r & H1 & _ & _ & H2).
  { apply Exists_cons_tl, Exists_cons_hd. reflexivity. }
  exists r. split; [exact H1 | exact H2].
Defined.

Lemma store_unchanged_witness :
  Backend.table
    (Backend.handle Sample.decimal_matches (Backend.Remove (str "7")) Sample.shop).2
  = Backend.table Sample.shop.
Proof.
  apply (store_unchanged Sample.decimal_matches (Backend.Remove (str "7")) Sample.shop).
  right. reflexivity.
Defined.

Lemma status_codes_witness :
  ∃ m, Backend.body
         (Backend.handle Sample.decimal_matches (Backend.Create Sample.cap_free)
            Sample.shop).1
       = Backend.Message m.
Proof.
  apply (proj2 (status_codes Sample.decimal_matches (Backend.Create Sample.cap_free)
                  Sample.shop)).
  vm_compute. discriminate.
Defined.

Lemma no_statement_after_fault_witness :
  length (Backend.issued Sample.shop_flaky
            (Backend.handle Sample.decimal_matches (Backend.Create Sample.cap)
               Sample.shop_flaky).2) = 2%nat.
Proof.
  symmetry.
  apply (proj1 (proj2 (no_statement_after_fault Sample.decimal_matches
                         (Backend.Create Sample.cap) Sample.shop_flaky))
           1%nat (Backend.SelectById (Backend.Num 6))).
  reflexivity.
Defined.

Lemma write_survives_later_fault_witness :
  Backend.status (Backend.router_post Sample.decimal_matches Sample.cap
                    Sample.shop_flaky).1 = 500
  ∧ length (Backend.table (Backend.router_post Sample.decimal_matches Sample.cap
                             Sample.shop_flaky).2) = 4%nat
  ∧ Backend.status (Backend.router_put Sample.decimal_matches (str "5") Sample.cap
                      Sample.shop_flaky).1 = 500.
Proof.
  destruct (write_survives_later_fault Sample.decimal_matches) as [A B].
  destruct (A Sample.cap Sample.shop_flaky [] cap_all_truthy eq_refl)
    as (A1 & r & A2 & _).
  destruct (B (str "5") Sample.cap Sample.shop_flaky []) as (B1 & _);
    [apply Exists_cons_tl, Exists_cons_hd; reflexivity | reflexivity |].
  split; [exact A1|]. split; [|exact B1]. rewrite A2. reflexivity.
Defined.

Lemma created_can_be_fetched_witness :
  ∃ r, (Backend.router_post Sample.decimal_matches Sample.cap Sample.shop).1
       = Backend.mkResponse 201 (Backend.Row (Some r))
       ∧ (Backend.router_get_id Sample.decimal_matches (str "6")
            (Backend.router_post Sample.decimal_matches Sample.cap Sample.shop).2).1
         = Backend.mkResponse 200 (Backend.Row (Some r)).
Proof.
  apply (created_can_be_fetched Sample.decimal_matches (str "6") Sample.cap Sample.shop
           cap_all_truthy shop_fresh_ids (shop_quiet 3)).
  - reflexivity.
  - repeat constructor.
Defined.

Lemma created_is_listed_first_witness :
  ∃ r rest,
    (Backend.router_post Sample.decimal_matches Sample.cap Sample.shop).1
    = Backend.mkResponse 201 (Backend.Row (Some r))
    ∧ (Backend.router_get Sample.decimal_matches
         (Backend.router_post Sample.decimal_matches Sample.cap Sample.shop).2).1
      = Backend.mkResponse 200 (Backend.Rows (r :: rest)).
Proof.
  destruct (created_is_listed_first Sample.decimal_matches Sample.cap Sample.shop
              cap_all_truthy shop_fresh_ids (shop_quiet 3))
    as (r & rest & A & B & _).
  by exists r, rest.
Defined.

Lemma deleted_is_gone_witness :
  (Backend.router_get_id Sample.decimal_matches (str "5")
     (Backend.router_delete Sample.decimal_matches (str "5") Sample.shop).2).1
  = Backend.mkResponse 404 (Backend.Message "Product not found").
Proof.
  apply (deleted_is_gone Sample.decimal_matches (str "5") Sample.shop (shop_quiet 2)).
Defined.

Lemma replaced_can_be_fetched_witness :
  (Backend.router_get_id Sample.decimal_matches (str "5")
     (Backend.router_put Sample.decimal_matches (str "5") Sample.cap Sample.shop).2).1
  = (Backend.router_put Sample.decimal_matches (str "5") Sample.cap Sample.shop).1.
Proof.
  apply (replaced_can_be_fetched Sample.decimal_matches (str "5") Sample.cap Sample.shop).
  - apply Exists_cons_tl, Exists_cons_hd. reflexivity.
  - apply shop_quiet.
Defined.

Lemma replace_keeps_rows_witness :
  Backend.table
    (Backend.router_put Sample.decimal_matches (str "7") Sample.cap Sample.shop).2
  = Backend.table Sample.shop
  ∧ Backend.table
      (Backend.router_put Sample.decimal_matches (str "5") Sample.cap
         (Backend.router_put Sample.decimal_matches (str "5") Sample.cap Sample.shop).2).2
    = Backend.table
        (Backend.router_put Sample.decimal_matches (str "5") Sample.cap Sample.shop).2.
Proof.
  destruct (replace_keeps_rows Sample.decimal_matches (str "7") Sample.cap Sample.shop)
    as (_ & _ & A & _).
  destruct (replace_keeps_rows Sample.decimal_matches (str "5") Sample.cap Sample.shop)
    as (_ & _ & _ & B).
  split; [apply A; repeat constructor | apply B, shop_quiet].
Defined.

Lemma identifiers_stay_unique_witness :
  Backend.unique_ids
    (Backend.handle Sample.decimal_matches (Backend.Create Sample.cap) Sample.shop).2.
Proof.
  apply (identifiers_stay_unique Sample.decimal_matches (Backend.Create Sample.cap)
           Sample.shop shop_fresh_ids).
  unfold Backend.unique_ids. simpl. compute_done.
Defined.
